(** * show_matrix: per-square attribution and counterfactual piece deltas

    A shallow embedding of [training/pytorch/show_matrix.py].

    Conventions of the embedding.
    - Python floats are embedded as exact rationals ([Q]): no rounding, no
      overflow, no non-finite values.  Where the source can raise
      ([float(v)], tuple unpacking, true division) the embedding returns an
      [outcome] that names the exception.
    - Where rounding and range matter (the division and the multiplication
      of lines 82-85), the same lines are also embedded on IEEE 754
      binary64 values (modules [F64] and [Binary64]): round to nearest,
      ties to even, overflow to an infinity, subnormal numbers, NaN.
    - Command-line text is embedded as [string] over ASCII.
    - The python-chess objects used by the script ([chess.Board],
      [chess.Piece], [chess.SQUARES], [chess.square_name]) are embedded with
      the library's numbering: square [0] is a1, square [63] is h8.
    - The trained network and the feature encoder are parameters of the
      development (see Section [ShowMatrix]). *)

From Stdlib Require Import QArith Qabs Qpower Lqa.
From Stdlib Require Floats.PrimFloat Floats.FloatOps Floats.SpecFloat.
From Stdlib Require Import Ascii String DecimalString.
From Stdlib Require Import Sorting.Sorted Sorting.Permutation.
From stdpp Require Import base list gmap strings fin_maps.

Local Open Scope Q_scope.

(** ** Outcomes of fallible Python code *)

Inductive exn : Type :=
| ValueError
| ZeroDivisionError
| IndexError.

(** [Unmodelled] marks an input on which Python returns a value that has no
    counterpart in the embedding (a non-finite float); it is not an
    exception of the source. *)
Inductive outcome (A : Type) : Type :=
| Ok (a : A)
| Raise (e : exn)
| Unmodelled.

Arguments Ok {A} a.
Arguments Raise {A} e.
Arguments Unmodelled {A}.

Definition obind {A B} (m : outcome A) (k : A -> outcome B) : outcome B :=
  match m with
  | Ok a => k a
  | Raise e => Raise e
  | Unmodelled => Unmodelled
  end.

Notation "'do' x <- m ; k" := (obind m (fun x => k))
  (at level 10, x name, m at level 100, k at level 200).

(** ** The Python string builtins used by the script *)

Module Py.

Definition ascii_is (c : ascii) (n : nat) : bool := Nat.eqb (nat_of_ascii c) n.

(** [str.isspace] on an ASCII character: TAB..CR, FS..US and SPACE. *)
Definition isspace (c : ascii) : bool :=
  let n := nat_of_ascii c in
  (Nat.leb 9 n && Nat.leb n 13) || (Nat.leb 28 n && Nat.leb n 32).

Definition isdigit (c : ascii) : bool :=
  let n := nat_of_ascii c in Nat.leb 48 n && Nat.leb n 57.

Definition digit_val (c : ascii) : Z := Z.of_nat (nat_of_ascii c - 48).

(** [sep in s] for a one-character [sep]. *)
Fixpoint contains (sep : ascii) (s : string) : bool :=
  match s with
  | EmptyString => false
  | String c s' => Ascii.eqb c sep || contains sep s'
  end.

(** [s.split(sep)] for a one-character [sep]: every occurrence cuts, empty
    fields are kept, the empty string gives one empty field. *)
Fixpoint split (sep : ascii) (s : string) : list string :=
  match s with
  | EmptyString => [EmptyString]
  | String c s' =>
      if Ascii.eqb c sep then EmptyString :: split sep s'
      else match split sep s' with
           | [] => [String c EmptyString]
           | w :: ws => String c w :: ws
           end
  end.

Fixpoint lstrip (s : string) : string :=
  match s with
  | EmptyString => EmptyString
  | String c s' => if isspace c then lstrip s' else s
  end.

Fixpoint rstrip (s : string) : string :=
  match s with
  | EmptyString => EmptyString
  | String c s' =>
      match rstrip s' with
      | EmptyString => if isspace c then EmptyString else String c EmptyString
      | r => String c r
      end
  end.

(** [s.strip()] *)
Definition strip (s : string) : string := rstrip (lstrip s).

Definition upper_char (c : ascii) : ascii :=
  let n := nat_of_ascii c in
  if Nat.leb 97 n && Nat.leb n 122 then ascii_of_nat (n - 32) else c.

(** [s.upper()] *)
Fixpoint upper (s : string) : string :=
  match s with
  | EmptyString => EmptyString
  | String c s' => String (upper_char c) (upper s')
  end.

(** *** [float(s)]

    The grammar of the builtin:
    [[sign] (digitpart ["." [digitpart]] | "." digitpart) [("e"|"E") [sign] digitpart]]
    between optional white space, where a digitpart is a run of digits
    that may hold single underscores between digits; or one of the words
    inf, infinity, nan in any letter case (with an optional sign).  *)

(** The longest digitpart prefix of [s] as (value, number of digits, rest),
    continuing from the accumulated value [acc] and count [n]. *)
Fixpoint digits_go (acc : Z) (n : nat) (s : string) : Z * nat * string :=
  match s with
  | EmptyString => (acc, n, EmptyString)
  | String c s' =>
      if isdigit c then digits_go (acc * 10 + digit_val c)%Z (S n) s'
      else if ascii_is c 95 then
        match s' with
        | String c2 _ =>
            if (Nat.ltb 0 n && isdigit c2)%bool then digits_go acc n s'
            else (acc, n, s)
        | EmptyString => (acc, n, s)
        end
      else (acc, n, s)
  end.

Definition starts_with_digit (s : string) : bool :=
  match s with
  | String c _ => isdigit c
  | EmptyString => false
  end.

Definition read_sign (s : string) : bool * string :=
  match s with
  | String c s' =>
      if ascii_is c 45 then (true, s')
      else if ascii_is c 43 then (false, s')
      else (false, s)
  | EmptyString => (false, s)
  end.

(** mantissa digits (integer and fraction run together), the number of
    fraction digits, and the rest of the text *)
Definition read_number (s : string) : option (Z * nat * string) :=
  if starts_with_digit s then
    let '(ip, _, r) := digits_go 0 0 s in
    match r with
    | String c r' =>
        if ascii_is c 46 then
          if starts_with_digit r' then
            let '(m, nf, r'') := digits_go ip 0 r' in Some (m, nf, r'')
          else Some (ip, 0%nat, r')
        else Some (ip, 0%nat, r)
    | EmptyString => Some (ip, 0%nat, r)
    end
  else
    match s with
    | String c r' =>
        if (ascii_is c 46 && starts_with_digit r')%bool then
          let '(m, nf, r'') := digits_go 0 0 r' in Some (m, nf, r'')
        else None
    | EmptyString => None
    end.

(** the decimal exponent (0 when absent) and the rest of the text *)
Definition read_exponent (s : string) : option (Z * string) :=
  match s with
  | String c r =>
      if (ascii_is c 101 || ascii_is c 69)%bool then
        let '(neg, r1) := read_sign r in
        if starts_with_digit r1 then
          let '(e, _, r2) := digits_go 0 0 r1 in
          Some (if neg then (- e)%Z else e, r2)
        else None
      else Some (0%Z, s)
  | EmptyString => Some (0%Z, s)
  end.

(** the rational [m * 10^e] *)
Definition scale10 (m e : Z) : Q :=
  if (0 <=? e)%Z then inject_Z (m * 10 ^ e)
  else Qmake m (Z.to_pos (10 ^ (- e))).

Definition is_nonfinite_word (s : string) : bool :=
  let u := upper s in
  (String.eqb u "INF" || String.eqb u "INFINITY" || String.eqb u "NAN")%bool.

(** The white space [float] skips around the literal of an ASCII string:
    TAB..CR and SPACE (not FS..US, which [str.strip] removes). *)
Definition float_isspace (c : ascii) : bool :=
  let n := nat_of_ascii c in
  (Nat.leb 9 n && Nat.leb n 13) || Nat.eqb n 32.

Fixpoint float_lstrip (s : string) : string :=
  match s with
  | EmptyString => EmptyString
  | String c s' => if float_isspace c then float_lstrip s' else s
  end.

Fixpoint float_rstrip (s : string) : string :=
  match s with
  | EmptyString => EmptyString
  | String c s' =>
      match float_rstrip s' with
      | EmptyString => if float_isspace c then EmptyString else String c EmptyString
      | r => String c r
      end
  end.

Definition float_strip (s : string) : string := float_rstrip (float_lstrip s).

(** The value is the decimal number as written; [F64.float] below rounds
    it to binary64. *)
Definition float (s : string) : outcome Q :=
  let '(neg, body) := read_sign (float_strip s) in
  if is_nonfinite_word body then Unmodelled
  else
    match read_number body with
    | None => Raise ValueError
    | Some (m, nf, r) =>
        match read_exponent r with
        | Some (e, EmptyString) =>
            let q := scale10 m (e - Z.of_nat nf) in
            Ok (if neg then - q else q)
        | _ => Raise ValueError
        end
    end.

(** [bool(x)] for a float: nonzero. *)
Definition float_truthy (x : Q) : bool := negb (Qeq_bool x 0).

(** [a / b] on floats raises on a zero divisor. *)
Definition truediv (a b : Q) : outcome Q :=
  if Qeq_bool b 0 then Raise ZeroDivisionError else Ok (a / b).

End Py.

(** ** The part of python-chess the script relies on *)

Module Chess.

Inductive PieceType : Type := PAWN | KNIGHT | BISHOP | ROOK | QUEEN | KING.

#[global] Instance PieceType_eq_dec : EqDecision PieceType.
Proof. solve_decision. Defined.

(** [chess.WHITE] is [True], [chess.BLACK] is [False]. *)
Record Piece : Type := mkPiece { piece_type : PieceType; color : bool }.

Definition type_letter (t : PieceType) : string :=
  match t with
  | PAWN => "p" | KNIGHT => "n" | BISHOP => "b"
  | ROOK => "r" | QUEEN => "q" | KING => "k"
  end.

(** [Piece.symbol()]: upper case for white, lower case for black. *)
Definition symbol (p : Piece) : string :=
  if color p then Py.upper (type_letter (piece_type p))
  else type_letter (piece_type p).

(** [chess.SQUARES = list(range(64))], a1 = 0, b1 = 1, ..., h8 = 63. *)
Definition SQUARES : list nat := seq 0 64.

Definition square_file (sq : nat) : nat := sq mod 8.
Definition square_rank (sq : nat) : nat := sq / 8.

Definition FILE_NAMES : list string := ["a"; "b"; "c"; "d"; "e"; "f"; "g"; "h"].
Definition RANK_NAMES : list string := ["1"; "2"; "3"; "4"; "5"; "6"; "7"; "8"].

(** [chess.square_name(sq)] *)
Definition square_name (sq : nat) : string :=
  nth (square_file sq) FILE_NAMES "" +:+ nth (square_rank sq) RANK_NAMES "".

(** [chess.square(file, rank)] *)
Definition square (file rank : nat) : nat := rank * 8 + file.

(** The state of a [chess.Board]: placement, side to move, castling
    rights (a set of rook squares), en-passant square, the two move
    counters and the move stack (from and to square of each move). *)
Record Board : Type := mkBoard {
  piece_map : gmap nat Piece;
  turn : bool;
  castling_rights : gset nat;
  ep_square : option nat;
  halfmove_clock : nat;
  fullmove_number : nat;
  move_stack : list (nat * nat)
}.

(** [board.piece_at(sq)] *)
Definition piece_at (b : Board) (sq : nat) : option Piece := piece_map b !! sq.

(** The value of [board.copy(stack=False)]: every field but the move stack. *)
Definition copy_no_stack (b : Board) : Board :=
  {| piece_map := piece_map b; turn := turn b;
     castling_rights := castling_rights b; ep_square := ep_square b;
     halfmove_clock := halfmove_clock b; fullmove_number := fullmove_number b;
     move_stack := [] |}.

(** The board after [board.remove_piece_at(sq)]: the square is emptied
    and the move stack cleared. *)
Definition remove_piece_at (b : Board) (sq : nat) : Board :=
  {| piece_map := delete sq (piece_map b); turn := turn b;
     castling_rights := castling_rights b; ep_square := ep_square b;
     halfmove_clock := halfmove_clock b; fullmove_number := fullmove_number b;
     move_stack := [] |}.

(** *** Piece placement from the first field of a FEN string

    Used to write down concrete boards.  The placement is read as
    python-chess reads it, ranks 8 to 1 separated by ["/"], a digit
    skipping that many files; a placement that does not fill 8 ranks of
    8 files has no board. *)

Definition piece_of_char (c : ascii) : option Piece :=
  let white := (Nat.leb 65 (nat_of_ascii c) && Nat.leb (nat_of_ascii c) 90)%bool in
  let u := nat_of_ascii (Py.upper_char c) in
  let ty :=
    if Nat.eqb u 80 then Some PAWN else if Nat.eqb u 78 then Some KNIGHT
    else if Nat.eqb u 66 then Some BISHOP else if Nat.eqb u 82 then Some ROOK
    else if Nat.eqb u 81 then Some QUEEN else if Nat.eqb u 75 then Some KING
    else None in
  match ty with
  | Some t => Some (mkPiece t white)
  | None => None
  end.

(** One rank of the placement, from file [f] on, written into rank [r]. *)
Fixpoint place_rank (r f : nat) (row : string) (m : gmap nat Piece)
  : option (gmap nat Piece) :=
  match row with
  | EmptyString => if Nat.eqb f 8 then Some m else None
  | String c row' =>
      let n := nat_of_ascii c in
      if (Nat.leb 49 n && Nat.leb n 56)%bool then place_rank r (f + (n - 48)) row' m
      else match piece_of_char c with
           | Some p =>
               if Nat.ltb f 8 then place_rank r (S f) row' (<[square f r := p]> m)
               else None
           | None => None
           end
  end.

(** The ranks of a placement, given from rank 8 down to rank 1. *)
Fixpoint place_ranks (r : nat) (rows : list string) (m : gmap nat Piece)
  : option (gmap nat Piece) :=
  match rows with
  | [] => Some m
  | row :: rows' =>
      match place_rank r 0 row m with
      | Some m' => place_ranks (pred r) rows' m'
      | None => None
      end
  end.

Definition parse_placement (s : string) : option (gmap nat Piece) :=
  let rows := Py.split "/" s in
  if Nat.eqb (length rows) 8 then place_ranks 7 rows ∅ else None.

(** A board with the given placement, white to move, no castling rights,
    no en-passant square and an empty move stack. *)
Definition board_of (pm : gmap nat Piece) : Board :=
  {| piece_map := pm; turn := true; castling_rights := ∅; ep_square := None;
     halfmove_clock := 0; fullmove_number := 1; move_stack := [] |}.

(** The board of a well-formed placement (the empty board otherwise). *)
Definition from_placement (s : string) : Board :=
  board_of (default ∅ (parse_placement s)).

Definition starting_board : Board :=
  from_placement "rnbqkbnr/pppppppp/8/8/8/8/PPPPPPPP/RNBQKBNR".

End Chess.

(** ** Text formatting *)

Module Fmt.

(** [sep.join(parts)] *)
Fixpoint join (sep : string) (parts : list string) : string :=
  match parts with
  | [] => ""
  | [p] => p
  | p :: ps => p +:+ sep +:+ join sep ps
  end.

Fixpoint spaces (n : nat) : string :=
  match n with
  | O => ""
  | S n' => String " " (spaces n')
  end.

Fixpoint zeros (n : nat) : string :=
  match n with
  | O => ""
  | S n' => String "0" (zeros n')
  end.

(** right-justify in a field of [width] characters, as [{s:>width}] *)
Definition rjust (width : nat) (s : string) : string :=
  spaces (width - String.length s) +:+ s.

Definition decimal (n : Z) : string :=
  DecimalString.NilZero.string_of_uint (N.to_uint (Z.to_N n)).

(** nearest integer to a non-negative rational, ties to even *)
Definition round_half_even (a : Q) : Z :=
  let n := Qnum a in
  let d := Z.pos (Qden a) in
  let k := (n / d)%Z in
  let r := (n mod d)%Z in
  if (2 * r <? d)%Z then k
  else if (d <? 2 * r)%Z then (k + 1)%Z
  else if Z.even k then k else (k + 1)%Z.

(** the digits of [|x|] with [prec] decimals *)
Definition fixed_digits (prec : nat) (a : Q) : string :=
  let p := (10 ^ Z.of_nat prec)%Z in
  let m := round_half_even (a * inject_Z p) in
  let frac := decimal (m mod p) in
  match prec with
  | O => decimal m
  | _ => decimal (m / p) +:+ "." +:+ zeros (prec - String.length frac) +:+ frac
  end.

(** [f"{x:W.Pf}"] and, with [plus], [f"{x:+W.Pf}"] *)
Definition format_f (plus : bool) (width prec : nat) (x : Q) : string :=
  let sign := if (Qnum x <? 0)%Z then "-" else if plus then "+" else "" in
  rjust width (sign +:+ fixed_digits prec (Qabs x)).

End Fmt.

(** ** Python floats as IEEE 754 binary64 values *)

Module F64.

(** A float: a finite value, given by the rational it denotes, an
    infinity with its sign, or a NaN.  The sign of a zero is not kept. *)
Inductive t : Type :=
| Fin (q : Q)
| Inf (neg : bool)
| NaN.

(** [2^k] for an integer [k] of either sign *)
Definition pow2 (k : Z) : Q := Qpower 2 k.

(** [floor (log2 a)] for a positive rational [a] *)
Definition ilog2 (a : Q) : Z :=
  let k := (Z.log2 (Qnum a) - Z.log2 (Z.pos (Qden a)))%Z in
  if Qle_bool (pow2 k) a then k else (k - 1)%Z.

(** The exponent of the last place of the binary64 numbers next to a
    positive [a]: 53 significant bits, and [-1074] at least (from there
    down the numbers are subnormal). *)
Definition last_place (a : Q) : Z := Z.max (ilog2 a - 52) (-1074).

(** The multiple of [2^(last_place a)] nearest to [a >= 0], ties to the
    even multiple. *)
Definition round_abs (a : Q) : Q :=
  let e := last_place a in
  inject_Z (Fmt.round_half_even (a / pow2 e)) * pow2 e.

(** The largest finite binary64 number, [(2^53 - 1) * 2^971]. *)
Definition max_finite : Q := inject_Z (2 ^ 53 - 1) * pow2 971.

Definition negative (q : Q) : bool := (Qnum q <? 0)%Z.

(** The float nearest to the real number [q] (round to nearest, ties to
    even); beyond the largest finite number the result is an infinity. *)
Definition round (q : Q) : t :=
  let r := round_abs (Qabs q) in
  if Qle_bool r max_finite then Fin (if negative q then - r else r)
  else Inf (negative q).

Definition is_zero (x : t) : bool :=
  match x with
  | Fin q => Qeq_bool q 0
  | _ => false
  end.

(** [bool(x)]: every float but zero is true, infinities and NaN too. *)
Definition truthy (x : t) : bool := negb (is_zero x).

(** [a / b]: [ZeroDivisionError] on a zero divisor, the IEEE quotient
    otherwise. *)
Definition truediv (a b : t) : outcome t :=
  if is_zero b then Raise ZeroDivisionError
  else Ok match a, b with
          | NaN, _ | _, NaN => NaN
          | Inf _, Inf _ => NaN
          | Inf s, Fin y => Inf (xorb s (negative y))
          | Fin _, Inf _ => Fin 0
          | Fin x, Fin y => round (x / y)
          end.

(** [a * b]: the IEEE product. *)
Definition mul (a b : t) : t :=
  match a, b with
  | NaN, _ | _, NaN => NaN
  | Inf s, Inf s' => Inf (xorb s s')
  | Inf s, Fin y => if Qeq_bool y 0 then NaN else Inf (xorb s (negative y))
  | Fin x, Inf s => if Qeq_bool x 0 then NaN else Inf (xorb (negative x) s)
  | Fin x, Fin y => round (x * y)
  end.

(** [float(s)]: the words inf, infinity and nan, or the float nearest to
    the decimal number written in [s]. *)
Definition float (s : string) : outcome t :=
  let '(neg, body) := Py.read_sign (Py.float_strip s) in
  let u := Py.upper body in
  if (String.eqb u "INF" || String.eqb u "INFINITY")%bool then Ok (Inf neg)
  else if String.eqb u "NAN" then Ok NaN
  else do q <- Py.float s; Ok (round q).

(** *** The kernel's binary64 numbers, read as floats of this module

    Used to compare the operations above with the machine's. *)

Definition of_spec (x : SpecFloat.spec_float) : t :=
  match x with
  | SpecFloat.S754_zero _ => Fin 0
  | SpecFloat.S754_infinity s => Inf s
  | SpecFloat.S754_nan => NaN
  | SpecFloat.S754_finite s m e =>
      Fin ((if s then - inject_Z (Z.pos m) else inject_Z (Z.pos m)) * pow2 e)
  end.

Definition of_prim (x : PrimFloat.float) : t := of_spec (FloatOps.Prim2SF x).

(** The positive machine number [m * 2^e]. *)
Definition prim (m : positive) (e : Z) : PrimFloat.float :=
  FloatOps.SF2Prim (SpecFloat.S754_finite false m e).

Definition same (a b : t) : bool :=
  match a, b with
  | Fin x, Fin y => Qeq_bool x y
  | Inf s, Inf s' => Bool.eqb s s'
  | NaN, NaN => true
  | _, _ => false
  end.

Definition agree_div (a b : PrimFloat.float) : bool :=
  match truediv (of_prim a) (of_prim b) with
  | Ok r => same r (of_prim (PrimFloat.div a b))
  | _ => false
  end.

Definition agree_mul (a b : PrimFloat.float) : bool :=
  same (mul (of_prim a) (of_prim b)) (of_prim (PrimFloat.mul a b)).

(** The unit roundoff [2^-53]. *)
Definition u : Q := pow2 (-53).

(** Magnitudes for which neither a quotient nor the product that undoes
    it leaves the normal range. *)
Definition in_range (q : Q) : Prop :=
  pow2 (-1021) <= Qabs q /\ Qabs q <= pow2 1023.

End F64.

(** ** Sorting as [list.sort(key=..., reverse=True)]: descending and stable *)

Section SortDesc.
Context {A : Type} (key : A -> Q).

Fixpoint insert_desc (x : A) (l : list A) : list A :=
  match l with
  | [] => [x]
  | y :: l' =>
      if Qle_bool (key y) (key x) then x :: l else y :: insert_desc x l'
  end.

Fixpoint sort_desc (l : list A) : list A :=
  match l with
  | [] => []
  | x :: l' => insert_desc x (sort_desc l')
  end.

(** [x] may stand before [y] in a descending list. *)
Definition desc (x y : A) : Prop := key y <= key x.

End SortDesc.

(** ** The nominal table ([main], lines 63-76) *)

(** [default_nom] as the dict literal of line 63. *)
Definition default_nom : gmap string (option Q) :=
  <["P" := Some 1]> (<["N" := Some 3]> (<["B" := Some 3]> (<["R" := Some 5]>
  (<["Q" := Some 7]> (<["K" := None]> ∅))))).

(** The argparse default of [--piece-nominals] (line 37). *)
Definition piece_nominals_default : string := "P:1,N:4.1,B:4.1,R:5,Q:7.8,K:4.6".

(** One turn of the loop of lines 64-67 on the token [part]. *)
Definition parse_part (tbl : gmap string (option Q)) (part : string)
  : outcome (gmap string (option Q)) :=
  if Py.contains ":" part then
    match Py.split ":" part with
    | [k; v] => do x <- Py.float v; Ok (<[Py.upper (Py.strip k) := Some x]> tbl)
    | _ => Raise ValueError
    end
  else Ok tbl.

Fixpoint parse_parts (tbl : gmap string (option Q)) (parts : list string)
  : outcome (gmap string (option Q)) :=
  match parts with
  | [] => Ok tbl
  | part :: rest => do tbl' <- parse_part tbl part; parse_parts tbl' rest
  end.

(** Lines 63-67: the table after the loop over [piece_nominals.split(",")]. *)
Definition parse_nominals (piece_nominals : string)
  : outcome (gmap string (option Q)) :=
  parse_parts default_nom (Py.split "," piece_nominals).

(** [d.get(k)] on a dict whose values may be [None]. *)
Definition dict_get (d : gmap string (option Q)) (k : string) : option Q :=
  match d !! k with
  | Some v => v
  | None => None
  end.

Definition type_key (t : Chess.PieceType) : string :=
  match t with
  | Chess.PAWN => "P" | Chess.KNIGHT => "N" | Chess.BISHOP => "B"
  | Chess.ROOK => "R" | Chess.QUEEN => "Q" | Chess.KING => "K"
  end.

(** Lines 69-76 followed by [nominal_map.get(piece.piece_type)]. *)
Definition nominal_map (tbl : gmap string (option Q)) (t : Chess.PieceType)
  : option Q :=
  dict_get tbl (type_key t).

(** The truth value of [nominal] in lines 82 and 84: neither [None] nor zero. *)
Definition nominal_truthy (nominal : option Q) : bool :=
  match nominal with
  | Some x => Py.float_truthy x
  | None => false
  end.

(** ** Loops that may raise *)

Fixpoint ofold {A B : Type} (body : B -> A -> outcome B) (l : list A) (acc : B)
  : outcome B :=
  match l with
  | [] => Ok acc
  | x :: l' => do acc' <- body acc x; ofold body l' acc'
  end.

(** [l[i]] on a Python list, for [i >= 0]. *)
Definition py_index {A : Type} (l : list A) (i : nat) : outcome A :=
  match l !! i with
  | Some x => Ok x
  | None => Raise IndexError
  end.

(** ** [format_matrix] (lines 12-21) *)

Definition format_cell (contrib : list Q) (r f : nat) : outcome string :=
  let idx := (r * 8 + f)%nat in
  do x <- py_index contrib idx; Ok (Fmt.format_f false 6 3 x).

Definition format_row (contrib : list Q) (r : nat) : outcome string :=
  do row_vals <- ofold (fun row_vals f =>
                          do c <- format_cell contrib r f; Ok (row_vals ++ [c]))
                       (seq 0 8) [];
  Ok (Fmt.join " " row_vals).

(** [range(7, -1, -1)] *)
Definition ranks_down : list nat := [7; 6; 5; 4; 3; 2; 1; 0]%nat.

Definition format_matrix (contrib : list Q) : outcome string :=
  do rows <- ofold (fun rows r =>
                      do row <- format_row contrib r; Ok (rows ++ [row]))
                   ranks_down [];
  Ok (Fmt.join (String (ascii_of_nat 10) "") rows).

(** ** Counterfactual rows and the store of board objects *)

(** The tuple [(delta, piece.symbol(), chess.square_name(sq_idx), sq_idx)]
    of line 124. *)
Record DeltaRow : Type := mkDeltaRow {
  delta : Q;
  row_symbol : string;
  row_sqname : string;
  row_sq : nat
}.

(** Board objects live in a store; [main] holds references to them.  The
    world also records, in call order, the evaluator calls of the
    counterfactual loop: the reference passed and the state of the object
    behind it at the call. *)
Record World : Type := mkWorld {
  heap : gmap nat Chess.Board;
  evaluated : list (nat * Chess.Board)
}.

(** Computations on the world; [None] is an access through a dangling
    reference. *)
Definition M (A : Type) : Type := World -> option (A * World).

Definition mret {A} (a : A) : M A := fun w => Some (a, w).

Definition mbind {A B} (m : M A) (k : A -> M B) : M B :=
  fun w => match m w with
           | Some (a, w') => k a w'
           | None => None
           end.

Notation "x <~ m ;; k" := (mbind m (fun x => k))
  (at level 100, m at next level, right associativity).

(** [ref.piece_at(sq)] *)
Definition board_piece_at (ref sq : nat) : M (option Chess.Piece) :=
  fun w => match heap w !! ref with
           | Some b => Some (Chess.piece_at b sq, w)
           | None => None
           end.

(** [ref.copy(stack=False)]: a new object, returned by reference. *)
Definition board_copy (ref : nat) : M nat :=
  fun w => match heap w !! ref with
           | Some b =>
               let ref' := fresh (dom (heap w)) in
               Some (ref', mkWorld (<[ref' := Chess.copy_no_stack b]> (heap w))
                                   (evaluated w))
           | None => None
           end.

(** [ref.remove_piece_at(sq)]: the object behind [ref] is changed in place. *)
Definition board_remove_piece_at (ref sq : nat) : M unit :=
  fun w => match heap w !! ref with
           | Some b =>
               Some (tt, mkWorld (<[ref := Chess.remove_piece_at b sq]> (heap w))
                                 (evaluated w))
           | None => None
           end.

(** The squares the counterfactual loop works on: occupied, not by a king. *)
Definition counterfactual_square (b : Chess.Board) (sq : nat) : bool :=
  match Chess.piece_at b sq with
  | Some p => bool_decide (Chess.piece_type p <> Chess.KING)
  | None => false
  end.

(** The position derived from [b] for square [sq]. *)
Definition removed (b : Chess.Board) (sq : nat) : Chess.Board :=
  Chess.remove_piece_at (Chess.copy_no_stack b) sq.

Section ShowMatrix.

(** The collaborators that are not part of the script:
    [board_to_features] of [generate_dataset], whose result without its
    last entry is read as 64 rows of 12 planes ([planes]), and the
    network [model], which returns the global value [g.item()] and the
    per-square scores [sq.view(1, 64, 12)[0]]. *)
Variable Features : Type.
Variable board_to_features : Chess.Board -> Features.
Variable planes : Features -> nat -> nat -> Q.
Variable model : Features -> Q * (nat -> nat -> Q).

(** [row.argmax()] over 12 entries: the first index of the maximum. *)
Definition argmax12 (row : nat -> Q) : nat :=
  fold_left (fun best j => if Qlt_le_dec (row best) (row j) then j else best)
            (seq 1 11) 0%nat.

(** Lines 54-59: [contrib[sq_idx]] gathers, in row [sq_idx] of the
    per-square scores, the column of the plane set in row [sq_idx] of the
    features. *)
Definition contrib (board : Chess.Board) (sq_idx : nat) : Q :=
  let feats := board_to_features board in
  let sq := snd (model feats) in
  let piece_idx := argmax12 (planes feats sq_idx) in
  sq sq_idx piece_idx.

(** Line 89. *)
Definition global_eval (board : Chess.Board) : Q :=
  fst (model (board_to_features board)).

(** Lines 82-85 on the raw value [val]. *)
Definition adjust (normalize scale_piece : bool) (nominal : option Q) (val : Q)
  : outcome Q :=
  do val1 <- match nominal with
             | Some n =>
                 if (normalize && nominal_truthy nominal)%bool
                 then Py.truediv val n else Ok val
             | None => Ok val
             end;
  match nominal with
  | Some n =>
      if (scale_piece && nominal_truthy nominal)%bool
      then Ok (val1 * n) else Ok val1
  | None => Ok val1
  end.

(** The body of the loop of lines 77-88: the value appended for [sq_idx]. *)
Definition square_value (board : Chess.Board) (tbl : gmap string (option Q))
    (normalize scale_piece : bool) (sq_idx : nat) : outcome Q :=
  match Chess.piece_at board sq_idx with
  | Some piece =>
      let val := contrib board sq_idx in
      let nominal := nominal_map tbl (Chess.piece_type piece) in
      adjust normalize scale_piece nominal val
  | None => Ok 0
  end.

(** Lines 61 and 77-88: [contrib_list] after the loop over [chess.SQUARES]. *)
Definition contrib_list (board : Chess.Board) (tbl : gmap string (option Q))
    (normalize scale_piece : bool) : outcome (list Q) :=
  ofold (fun acc sq_idx =>
           do v <- square_value board tbl normalize scale_piece sq_idx;
           Ok (acc ++ [v]))
        Chess.SQUARES [].

(** Lines 99-104: the occupied squares with value, symbol and name,
    sorted by value, largest first. *)
Definition scored (board : Chess.Board) (contrib_list : list Q)
  : outcome (list (Q * string * string)) :=
  do l <- ofold (fun acc sq =>
                   match Chess.piece_at board sq with
                   | Some piece =>
                       do v <- py_index contrib_list sq;
                       Ok (acc ++ [(v, Chess.symbol piece, Chess.square_name sq)])
                   | None => Ok acc
                   end)
                Chess.SQUARES [];
  Ok (sort_desc (fun x => fst (fst x)) l).

(** [model(board_to_features(ref))] of lines 120-122, as [g2.item()]; the
    encoder and the network only read the board. *)
Definition evaluate (ref : nat) : M Q :=
  fun w => match heap w !! ref with
           | Some b =>
               Some (fst (model (board_to_features b)),
                     mkWorld (heap w) (evaluated w ++ [(ref, b)]))
           | None => None
           end.

(** The loop of lines 114-124 over the squares still to visit. *)
Fixpoint delta_loop (board : nat) (global_eval : Q) (squares : list nat)
    (deltas : list DeltaRow) : M (list DeltaRow) :=
  match squares with
  | [] => mret deltas
  | sq_idx :: rest =>
      piece <~ board_piece_at board sq_idx ;;
      match piece with
      | None => delta_loop board global_eval rest deltas
      | Some p =>
          if decide (Chess.piece_type p = Chess.KING)
          then delta_loop board global_eval rest deltas
          else
            b2 <~ board_copy board ;;
            _ <~ board_remove_piece_at b2 sq_idx ;;
            g2 <~ evaluate b2 ;;
            let delta := global_eval - g2 in
            delta_loop board global_eval rest
              (deltas ++ [mkDeltaRow delta (Chess.symbol p)
                                     (Chess.square_name sq_idx) sq_idx])
      end
  end.

(** Lines 112-125: [deltas] after the block, for the board object behind
    [board] and the value [global_eval] of line 89. *)
Definition deltas (with_delta : bool) (grid_mode : string) (board : nat)
    (global_eval : Q) : M (list DeltaRow) :=
  if (with_delta || String.eqb grid_mode "delta")%bool then
    ds <~ delta_loop board global_eval Chess.SQUARES [] ;;
    mret (sort_desc delta ds)
  else mret [].

Definition delta_line (row : DeltaRow) : string :=
  Fmt.rjust 2 (row_sqname row) +:+ " " +:+ Fmt.rjust 2 (row_symbol row)
    +:+ ": " +:+ Fmt.format_f true 0 3 (delta row).

(** Lines 126-129: what the block prints, one entry per [print] call. *)
Definition print_deltas (with_delta : bool) (ds : list DeltaRow) : list string :=
  if with_delta then
    (String (ascii_of_nat 10) "Counterfactual piece deltas (removing piece):")
      :: map delta_line ds
  else [].

(** The counterfactual part of a run of [main] on a board [b]: the
    board object is the only one in the store, [global_eval] is taken
    from it before the block (line 89). *)
Definition run_deltas (with_delta : bool) (grid_mode : string) (b : Chess.Board)
  : option (list DeltaRow * World) :=
  deltas with_delta grid_mode 0%nat (global_eval b)
         (mkWorld {[ 0%nat := b ]} []).

(** The row the loop of lines 114-124 appends for square [sq] of the
    board state [b], if it appends one. *)
Definition expected_row (b : Chess.Board) (global_eval : Q) (sq : nat)
  : option DeltaRow :=
  match Chess.piece_at b sq with
  | Some p =>
      if decide (Chess.piece_type p = Chess.KING) then None
      else Some (mkDeltaRow
                   (global_eval - fst (model (board_to_features (removed b sq))))
                   (Chess.symbol p) (Chess.square_name sq) sq)
  | None => None
  end.

End ShowMatrix.

(** ** A deterministic stub evaluator

    Used to run the script's logic on concrete boards: the features are
    the board itself, the planes are one-hot in the column of the piece on
    the square (white pawn..king 0..5, black pawn..king 6..11), the global
    value counts the pieces on the board and the score of row [i], column
    [j] is [12 i + j + 1]. *)

Module Stub.

Definition Features : Type := Chess.Board.

Definition board_to_features (b : Chess.Board) : Features := b.

Definition type_index (t : Chess.PieceType) : nat :=
  match t with
  | Chess.PAWN => 0 | Chess.KNIGHT => 1 | Chess.BISHOP => 2
  | Chess.ROOK => 3 | Chess.QUEEN => 4 | Chess.KING => 5
  end.

Definition plane_of (p : Chess.Piece) : nat :=
  (type_index (Chess.piece_type p) + (if Chess.color p then 0 else 6))%nat.

Definition planes (feats : Features) (i j : nat) : Q :=
  match Chess.piece_at feats i with
  | Some p => if Nat.eqb (plane_of p) j then 1 else 0
  | None => 0
  end.

Definition model (feats : Features) : Q * (nat -> nat -> Q) :=
  (inject_Z (Z.of_nat (size (Chess.piece_map feats))),
   fun i j => inject_Z (Z.of_nat (12 * i + j + 1))).

(** A second network: the global value is the material balance, white
    minus black, with pawn 1, knight 3, bishop 3, rook 5, queen 9 and
    king 0; every per-square score is 0. *)
Definition piece_value (p : Chess.Piece) : Q :=
  let v := match Chess.piece_type p with
           | Chess.PAWN => 1 | Chess.KNIGHT => 3 | Chess.BISHOP => 3
           | Chess.ROOK => 5 | Chess.QUEEN => 9 | Chess.KING => 0
           end in
  if Chess.color p then v else - v.

Definition material (feats : Features) : Q * (nat -> nat -> Q) :=
  (map_fold (fun _ p acc => acc + piece_value p) 0 (Chess.piece_map feats),
   fun _ _ => 0).

(** A network with float results: every per-square score is [4.0]. *)
Definition model64 (feats : Features) : F64.t * (nat -> nat -> F64.t) :=
  (F64.Fin 0, fun _ _ => F64.Fin 4).

End Stub.

(** ** Reference definitions used to state the properties *)

(** The binding a token contributes when it is a well-formed
    [SYMBOL:VALUE] pair: the normalised symbol and the value. *)
Definition token_binding (part : string) : option (string * Q) :=
  if Py.contains ":" part then
    match Py.split ":" part with
    | [k; v] =>
        match Py.float v with
        | Ok x => Some (Py.upper (Py.strip k), x)
        | _ => None
        end
    | _ => None
    end
  else None.

(** The token makes the loop of lines 64-67 raise: it holds a [":"] and
    either does not split into exactly two fields or has a value field that
    [float] rejects. *)
Definition token_raises (part : string) : bool :=
  Py.contains ":" part
  && match Py.split ":" part with
     | [k; v] => match Py.float v with
                 | Raise ValueError => true
                 | _ => false
                 end
     | _ => true
     end.

(** The value of the last well-formed token of [parts] that names [key]. *)
Definition binding_step (key : string) (found : option Q) (part : string)
  : option Q :=
  match token_binding part with
  | Some (k, x) => if String.eqb k key then Some x else found
  | None => found
  end.

Definition last_binding (key : string) (parts : list string) : option Q :=
  fold_left (binding_step key) parts None.

(** Every token of the override string that holds a [":"] is a well-formed
    [SYMBOL:VALUE] pair. *)
Definition tokens_well_formed (piece_nominals : string) : bool :=
  forallb (fun part => implb (Py.contains ":" part)
                             (bool_decide (is_Some (token_binding part))))
          (Py.split "," piece_nominals).

(** The table the specification describes: the defaults, overwritten by
    the well-formed tokens of the override string, last occurrence first. *)
Definition spec_lookup (piece_nominals key : string) : option (option Q) :=
  match last_binding key (Py.split "," piece_nominals) with
  | Some x => Some (Some x)
  | None => default_nom !! key
  end.

(** The board square of row [i] in the order "rank 8 down to rank 1, file a
    to h within each rank" (row 0 is a8). *)
Definition spec_row_square (i : nat) : nat := Chess.square (i mod 8) (7 - i / 8).

(** ** The report of [main] (lines 89-110 and 131-155) *)

(** The options of [main] that the report depends on (lines 27-40). *)
Module Args.

Record t : Type := mk {
  fen : string;
  with_delta : bool;
  normalize : bool;
  scale_piece : bool;
  piece_nominals : string;
  fancy : bool;
  grid_mode : string
}.

End Args.

(** What a run has printed so far, one entry per [print] call, and how it
    went on: [Ok] with a value, or the exception that ended it. *)
Definition Prog (A : Type) : Type := (list string * outcome A)%type.

Definition pret {A} (a : A) : Prog A := ([], Ok a).

Definition pbind {A B} (m : Prog A) (k : A -> Prog B) : Prog B :=
  match m with
  | (out, Ok a) => let (out', r) := k a in (out ++ out', r)
  | (out, Raise e) => (out, Raise e)
  | (out, Unmodelled) => (out, Unmodelled)
  end.

Notation "'run' x <- m ; k" := (pbind m (fun x => k))
  (at level 10, x name, m at level 100, k at level 200).

(** [print(s)] *)
Definition print (s : string) : Prog unit := ([s], Ok tt).

(** a step that prints nothing *)
Definition lift {A} (o : outcome A) : Prog A := ([], o).

(** [for x in l: body(x)] *)
Fixpoint pfor {A} (l : list A) (body : A -> Prog unit) : Prog unit :=
  match l with
  | [] => pret tt
  | x :: l' => run _ <- body x; pfor l' body
  end.

(** [sum(l)] on floats: from 0, adding from the left. *)
Definition py_sum (l : list Q) : Q := fold_left Qplus l 0.

(** [l[:5]] and [l[-5:]] *)
Definition first5 {A} (l : list A) : list A := take 5 l.
Definition last5 {A} (l : list A) : list A := drop (length l - 5) l.

(** [f"{s:^width}"]: the padding is split with the smaller half on the left. *)
Definition center (width : nat) (s : string) : string :=
  let pad := (width - String.length s)%nat in
  Fmt.spaces (pad / 2) +:+ s +:+ Fmt.spaces (pad - pad / 2).

(** Lines 107 and 110: [f"{sqname:>2} {sym:>2}: {val:+.3f}"]. *)
Definition scored_line (x : Q * string * string) : string :=
  let '(val, sym, sqname) := x in
  Fmt.rjust 2 sqname +:+ " " +:+ Fmt.rjust 2 sym +:+ ": " +:+ Fmt.format_f true 0 3 val.

(** Line 136: [{sq_idx: val for val, _, _, sq_idx in deltas}]. *)
Definition delta_map (deltas : list DeltaRow) : gmap nat Q :=
  fold_left (fun m row => <[row_sq row := delta row]> m) deltas ∅.

Definition cell_w : nat := 11.

Fixpoint dashes (n : nat) : string :=
  match n with
  | O => ""
  | S n' => String "-" (dashes n')
  end.

(** Line 134. *)
Definition sep : string :=
  "+" +:+ Fmt.join "+" (replicate 8 (dashes cell_w)) +:+ "+".

(** Lines 141-152: the symbol cell and the value cell of square [idx]. *)
Definition fancy_cell (board : Chess.Board) (contrib_list : list Q)
    (delta_map : gmap nat Q) (grid_mode : string) (idx : nat)
  : outcome (string * string) :=
  match Chess.piece_at board idx with
  | Some piece =>
      do val <- (if String.eqb grid_mode "delta"
                 then Ok (default 0 (delta_map !! idx))
                 else py_index contrib_list idx);
      Ok (center cell_w (Chess.symbol piece),
          center cell_w (Fmt.format_f false 0 2 val))
  | None => Ok (Fmt.spaces cell_w, Fmt.spaces cell_w)
  end.

(** Lines 138-152: [sym_cells] and [val_cells] of rank index [r]. *)
Definition fancy_cells (board : Chess.Board) (contrib_list : list Q)
    (delta_map : gmap nat Q) (grid_mode : string) (r : nat)
  : outcome (list string * list string) :=
  ofold (fun cells f =>
           do c <- fancy_cell board contrib_list delta_map grid_mode (r * 8 + f);
           Ok (fst cells ++ [fst c], snd cells ++ [snd c]))
        (seq 0 8) ([], []).

Definition bar_line (cells : list string) : string :=
  "|" +:+ Fmt.join "|" cells +:+ "|".

(** Lines 132-155, the body of [if args.fancy]. *)
Definition fancy_grid (board : Chess.Board) (contrib_list : list Q)
    (deltas : list DeltaRow) (grid_mode : string) : Prog unit :=
  run _ <- print (String (ascii_of_nat 10)
                    "Fancy grid (piece on first line, value on second):");
  run _ <- print sep;
  let delta_map := delta_map deltas in
  pfor ranks_down
    (fun r =>
       run cells <- lift (fancy_cells board contrib_list delta_map grid_mode r);
       run _ <- print (bar_line (fst cells));
       run _ <- print (bar_line (snd cells));
       print sep).

Section Report.

Variable Features : Type.
Variable board_to_features : Chess.Board -> Features.
Variable planes : Features -> nat -> nat -> Q.
Variable model : Features -> Q * (nat -> nat -> Q).

(** [main] from line 61 on, for the board [b] built from [args.fen]; the
  board object is the only one in the store when the counterfactual
  block starts, and the fancy grid reads it from the store afterwards. *)
Definition main (args : Args.t) (b : Chess.Board) : Prog unit :=
run tbl <- lift (parse_nominals (Args.piece_nominals args));
run contrib_list <-
  lift (contrib_list Features board_to_features planes model b tbl
          (Args.normalize args) (Args.scale_piece args));
let global_eval := global_eval Features board_to_features model b in
run _ <- print ("FEN: " +:+ Args.fen args);
run _ <- print ("Global eval: " +:+ Fmt.format_f false 0 3 global_eval
                 +:+ " pawns");
let total_contrib := py_sum contrib_list in
run _ <- print ("Sum of per-square contributions: "
                 +:+ Fmt.format_f false 0 3 total_contrib
                 +:+ " pawns (diff "
                 +:+ Fmt.format_f true 0 3 (global_eval - total_contrib)
                 +:+ ")");
run _ <- print "Per-square contributions (A8 on the first row):";
run grid <- lift (format_matrix contrib_list);
run _ <- print grid;
run scored <- lift (scored b contrib_list);
run _ <- print (String (ascii_of_nat 10) "Top 5 contributors:");
run _ <- pfor (first5 scored) (fun x => print (scored_line x));
run _ <- print (String (ascii_of_nat 10) "Bottom 5 contributors:");
run _ <- pfor (last5 scored) (fun x => print (scored_line x));
match deltas Features board_to_features model (Args.with_delta args)
        (Args.grid_mode args) 0%nat global_eval (mkWorld {[ 0%nat := b ]} []) with
| Some (deltas, w) =>
    run _ <- pfor (print_deltas (Args.with_delta args) deltas) print;
    if Args.fancy args then
      match heap w !! 0%nat with
      | Some board => fancy_grid board contrib_list deltas (Args.grid_mode args)
      | None => lift Unmodelled
      end
    else pret tt
| None => lift Unmodelled
end.

End Report.

(** ** Reference definitions for the report *)

(** The entry of [scored] for square [sq], if the square is occupied. *)
Definition scored_entry (b : Chess.Board) (contrib_list : list Q) (sq : nat)
  : option (Q * string * string) :=
  match Chess.piece_at b sq with
  | Some piece => Some (nth sq contrib_list 0, Chess.symbol piece, Chess.square_name sq)
  | None => None
  end.

(** The value of a [scored] entry, the sort key of line 104. *)
Definition scored_val (x : Q * string * string) : Q := fst (fst x).

(** The two texts the fancy grid shows for square [idx]: the piece symbol
    and the value, both centred; blank for an empty square. *)
Definition fancy_cell_text (b : Chess.Board) (contrib_list : list Q)
    (dm : gmap nat Q) (grid_mode : string) (idx : nat) : string * string :=
  match Chess.piece_at b idx with
  | Some piece =>
      (center cell_w (Chess.symbol piece),
       center cell_w
         (Fmt.format_f false 0 2
            (if String.eqb grid_mode "delta" then default 0 (dm !! idx)
             else nth idx contrib_list 0)))
  | None => (Fmt.spaces cell_w, Fmt.spaces cell_w)
  end.

(** ** Lines 63-88 on binary64 values

    The same lines as above, with the nominals and the values of
    [contrib_list] as the floats the script computes with. *)

Module Binary64.

(** Line 63. *)
Definition default_nom : gmap string (option F64.t) :=
  <["P" := Some (F64.Fin 1)]> (<["N" := Some (F64.Fin 3)]>
  (<["B" := Some (F64.Fin 3)]> (<["R" := Some (F64.Fin 5)]>
  (<["Q" := Some (F64.Fin 7)]> (<["K" := None]> ∅))))).

(** One turn of the loop of lines 64-67. *)
Definition parse_part (tbl : gmap string (option F64.t)) (part : string)
  : outcome (gmap string (option F64.t)) :=
  if Py.contains ":" part then
    match Py.split ":" part with
    | [k; v] => do x <- F64.float v; Ok (<[Py.upper (Py.strip k) := Some x]> tbl)
    | _ => Raise ValueError
    end
  else Ok tbl.

(** Lines 63-67. *)
Definition parse_nominals (piece_nominals : string)
  : outcome (gmap string (option F64.t)) :=
  ofold parse_part (Py.split "," piece_nominals) default_nom.

(** Lines 69-76 followed by [nominal_map.get(piece.piece_type)]. *)
Definition nominal_map (tbl : gmap string (option F64.t)) (t : Chess.PieceType)
  : option F64.t :=
  match tbl !! type_key t with
  | Some v => v
  | None => None
  end.

(** The truth value of [nominal] in lines 82 and 84. *)
Definition nominal_truthy (nominal : option F64.t) : bool :=
  match nominal with
  | Some x => F64.truthy x
  | None => false
  end.

(** Lines 82-85 on the raw value [val]. *)
Definition adjust (normalize scale_piece : bool) (nominal : option F64.t)
    (val : F64.t) : outcome F64.t :=
  do val1 <- match nominal with
             | Some n =>
                 if (normalize && nominal_truthy nominal)%bool
                 then F64.truediv val n else Ok val
             | None => Ok val
             end;
  match nominal with
  | Some n =>
      if (scale_piece && nominal_truthy nominal)%bool
      then Ok (F64.mul val1 n) else Ok val1
  | None => Ok val1
  end.

Section Attribution.

(** The encoder and the network, the network with float results. *)
Variable Features : Type.
Variable board_to_features : Chess.Board -> Features.
Variable planes : Features -> nat -> nat -> Q.
Variable model : Features -> F64.t * (nat -> nat -> F64.t).

(** Lines 54-59 and [float(contrib[sq_idx])] of line 80. *)
Definition contrib (board : Chess.Board) (sq_idx : nat) : F64.t :=
  let feats := board_to_features board in
  let sq := snd (model feats) in
  let piece_idx := argmax12 (planes feats sq_idx) in
  sq sq_idx piece_idx.

(** The body of the loop of lines 77-88. *)
Definition square_value (board : Chess.Board) (tbl : gmap string (option F64.t))
    (normalize scale_piece : bool) (sq_idx : nat) : outcome F64.t :=
  match Chess.piece_at board sq_idx with
  | Some piece =>
      let val := contrib board sq_idx in
      let nominal := nominal_map tbl (Chess.piece_type piece) in
      adjust normalize scale_piece nominal val
  | None => Ok (F64.Fin 0)
  end.

(** Lines 61 and 77-88. *)
Definition contrib_list (board : Chess.Board) (tbl : gmap string (option F64.t))
    (normalize scale_piece : bool) : outcome (list F64.t) :=
  ofold (fun acc sq_idx =>
           do v <- square_value board tbl normalize scale_piece sq_idx;
           Ok (acc ++ [v]))
        Chess.SQUARES [].

End Attribution.

End Binary64.
(** * Properties *)

(** ** The embedded builtins on concrete inputs *)

Example float_41 : Py.float "4.1" = Ok (41 # 10).
Proof. reflexivity. Qed.
Example float_exp : Py.float " -1_0.5e-1 " = Ok (- (105 # 100)).
Proof. reflexivity. Qed.
Example float_empty : Py.float "" = Raise ValueError.
Proof. reflexivity. Qed.
Example float_x : Py.float "x" = Raise ValueError.
Proof. reflexivity. Qed.
Example float_dot : Py.float "." = Raise ValueError.
Proof. reflexivity. Qed.
Example float_1dot : Py.float "1." = Ok 1.
Proof. reflexivity. Qed.
Example float_inf : Py.float "-Inf" = Unmodelled.
Proof. reflexivity. Qed.
Example split_ex : Py.split "," "a,,b," = ["a"; ""; "b"; ""].
Proof. reflexivity. Qed.
Example strip_ex : Py.upper (Py.strip "  p q ") = "P Q".
Proof. reflexivity. Qed.
Example square_name_0 : Chess.square_name 0 = "a1".
Proof. reflexivity. Qed.
Example square_name_56 : Chess.square_name 56 = "a8".
Proof. reflexivity. Qed.
Example square_name_63 : Chess.square_name 63 = "h8".
Proof. reflexivity. Qed.
Example start_e1 :
  Chess.piece_at Chess.starting_board 4 = Some (Chess.mkPiece Chess.KING true).
Proof. vm_compute. reflexivity. Qed.
Example start_e8 :
  Chess.piece_at Chess.starting_board 60 = Some (Chess.mkPiece Chess.KING false).
Proof. vm_compute. reflexivity. Qed.
Example start_e4 : Chess.piece_at Chess.starting_board 28 = None.
Proof. vm_compute. reflexivity. Qed.
Example format_ex1 : Fmt.format_f false 6 3 (41 # 10) = " 4.100".
Proof. reflexivity. Qed.
Example format_ex2 : Fmt.format_f false 6 3 (- (1 # 3)) = "-0.333".
Proof. reflexivity. Qed.
Example format_ex3 : Fmt.format_f true 0 3 (1 # 16) = "+0.062".
Proof. reflexivity. Qed.
Example format_ex4 : Fmt.format_f false 6 3 (- (12345 # 10)) = "-1234.500".
Proof. reflexivity. Qed.
Example format_ex5 : Fmt.format_f false 6 3 0 = " 0.000".
Proof. reflexivity. Qed.
Example parse_default_K :
  (do t <- parse_nominals piece_nominals_default; Ok (nominal_map t Chess.KING))
  = Ok (Some (46 # 10)).
Proof. vm_compute. reflexivity. Qed.
Example parse_P2N5 :
  (do t <- parse_nominals "P:2,N:5";
   Ok (map (nominal_map t)
         [Chess.PAWN; Chess.KNIGHT; Chess.BISHOP; Chess.ROOK; Chess.QUEEN; Chess.KING]))
  = Ok [Some 2; Some 5; Some 3; Some 5; Some 7; None].
Proof. vm_compute. reflexivity. Qed.
Example parse_no_sep : parse_nominals "P2" = Ok default_nom.
Proof. vm_compute. reflexivity. Qed.
Example parse_bad_value : parse_nominals "P:x" = Raise ValueError.
Proof. vm_compute. reflexivity. Qed.
Example parse_two_seps : parse_nominals "P:1:2" = Raise ValueError.
Proof. vm_compute. reflexivity. Qed.
Example parse_empty_value : parse_nominals "P:" = Raise ValueError.
Proof. vm_compute. reflexivity. Qed.

(** ** Sorting *)

Section SortDescFacts.
Context {A : Type} (key : A -> Q).

Lemma insert_desc_perm x l : Permutation (x :: l) (insert_desc key x l).
Proof.
  induction l as [|y l IH]; simpl; [done|].
  destruct (Qle_bool (key y) (key x)); [done|].
  rewrite perm_swap. by constructor.
Qed.

Lemma sort_desc_perm l : Permutation l (sort_desc key l).
Proof.
  induction l as [|x l IH]; simpl; [done|].
  rewrite <- insert_desc_perm. by constructor.
Qed.

Lemma insert_desc_sorted x l :
  Sorted (desc key) l -> Sorted (desc key) (insert_desc key x l).
Proof.
  induction l as [|y l IH]; intros Hs; simpl.
  - repeat constructor.
  - destruct (Qle_bool (key y) (key x)) eqn:E.
    + constructor; [done|]. constructor. by apply Qle_bool_iff.
    + apply Sorted_inv in Hs as [Hs Hhd].
      constructor; [by apply IH|].
      assert (Hyx : key x <= key y).
      { apply Qlt_le_weak, Qnot_le_lt. intros Hle.
        apply Qle_bool_iff in Hle. congruence. }
      destruct l as [|z l]; simpl.
      * by constructor.
      * destruct (Qle_bool (key z) (key x)); constructor; [done|].
        by apply HdRel_inv in Hhd.
Qed.

Lemma sort_desc_sorted l : Sorted (desc key) (sort_desc key l).
Proof.
  induction l as [|x l IH]; simpl; [constructor|].
  by apply insert_desc_sorted.
Qed.

Lemma sort_desc_length l : length (sort_desc key l) = length l.
Proof. symmetry. apply Permutation_length, sort_desc_perm. Qed.

End SortDescFacts.

(** ** Loops that collect one value per element *)

Lemma ofold_snoc_map {A B : Type} (f : A -> outcome B) (g : A -> B)
    (l : list A) (acc : list B) :
  (forall x, x ∈ l -> f x = Ok (g x)) ->
  ofold (fun acc x => do v <- f x; Ok (acc ++ [v])) l acc = Ok (acc ++ map g l).
Proof.
  revert acc. induction l as [|x l IH]; intros acc Hf; simpl.
  - by rewrite app_nil_r.
  - rewrite (Hf x) by left. simpl. rewrite IH.
    + by rewrite <- app_assoc.
    + intros y Hy. apply Hf. by right.
Qed.

Lemma ofold_snoc_total {A B : Type} (f : A -> outcome B)
    (l : list A) (acc : list B) :
  (forall x, x ∈ l -> exists v, f x = Ok v) ->
  exists vs, ofold (fun acc x => do v <- f x; Ok (acc ++ [v])) l acc = Ok (acc ++ vs)
             /\ Forall2 (fun x v => f x = Ok v) l vs.
Proof.
  revert acc. induction l as [|x l IH]; intros acc Hf; simpl.
  - exists []. split; [by rewrite app_nil_r | constructor].
  - destruct (Hf x) as [v Hv]; [by left|]. rewrite Hv. simpl.
    destruct (IH (acc ++ [v])) as (vs & Hvs & Hall).
    { intros y Hy. apply Hf. by right. }
    exists (v :: vs). split; [|by constructor].
    by rewrite Hvs, <- app_assoc.
Qed.

(** ** The nominal table *)

Lemma parse_part_skip tbl part :
  Py.contains ":" part = false -> parse_part tbl part = Ok tbl.
Proof. intros H. unfold parse_part. by rewrite H. Qed.

Lemma parse_part_binding tbl part k x :
  token_binding part = Some (k, x) ->
  parse_part tbl part = Ok (<[k := Some x]> tbl).
Proof.
  unfold token_binding, parse_part.
  destruct (Py.contains ":" part); [|done].
  destruct (Py.split ":" part) as [|k0 [|v [|? ?]]]; try done.
  destruct (Py.float v); [|done..].
  intros [= <- <-]. done.
Qed.

Lemma parse_part_no_binding tbl part :
  Py.contains ":" part = true -> token_binding part = None ->
  forall tbl', parse_part tbl part <> Ok tbl'.
Proof.
  unfold token_binding, parse_part. intros -> Hb tbl'.
  destruct (Py.split ":" part) as [|k0 [|v [|? ?]]]; try done.
  destruct (Py.float v); done.
Qed.

Lemma token_binding_colon part b :
  token_binding part = Some b -> Py.contains ":" part = true.
Proof. unfold token_binding. by destruct (Py.contains ":" part). Qed.

Lemma parse_parts_filter tbl parts :
  parse_parts tbl parts
  = parse_parts tbl (filter (fun part => Py.contains ":" part = true) parts).
Proof.
  revert tbl. induction parts as [|part parts IH]; intros tbl; [done|].
  rewrite filter_cons. destruct (decide (Py.contains ":" part = true)) as [Hc|Hc].
  - simpl. destruct (parse_part tbl part); simpl; [apply IH|done..].
  - simpl. rewrite parse_part_skip by by destruct (Py.contains ":" part).
    simpl. apply IH.
Qed.

Lemma parse_parts_bad tbl parts part :
  part ∈ parts -> Py.contains ":" part = true -> token_binding part = None ->
  forall tbl', parse_parts tbl parts <> Ok tbl'.
Proof.
  intros Hin Hc Hb. revert tbl.
  induction parts as [|p parts IH]; intros tbl tbl'; [by apply not_elem_of_nil in Hin|].
  simpl. destruct (parse_part tbl p) as [t| |] eqn:Hp; simpl; [|done..].
  apply elem_of_cons in Hin as [->|Hin].
  - by apply parse_part_no_binding in Hp.
  - by apply IH.
Qed.

Lemma last_binding_from key parts found :
  fold_left (binding_step key) parts found
  = match fold_left (binding_step key) parts None with
    | Some x => Some x
    | None => found
    end.
Proof.
  revert found. induction parts as [|part parts IH]; intros found; [done|].
  simpl. rewrite IH. rewrite (IH (binding_step key None part)).
  destruct (fold_left (binding_step key) parts None); [done|].
  unfold binding_step. destruct (token_binding part) as [[k x]|]; [|done].
  by destruct (String.eqb k key).
Qed.

Lemma last_binding_cons key part parts :
  last_binding key (part :: parts)
  = match last_binding key parts with
    | Some x => Some x
    | None => binding_step key None part
    end.
Proof. unfold last_binding. simpl. apply last_binding_from. Qed.

Lemma parse_parts_lookup tbl parts :
  (forall part, part ∈ parts -> Py.contains ":" part = true ->
                is_Some (token_binding part)) ->
  exists tbl', parse_parts tbl parts = Ok tbl'
    /\ forall key, tbl' !! key = match last_binding key parts with
                                 | Some x => Some (Some x)
                                 | None => tbl !! key
                                 end.
Proof.
  revert tbl. induction parts as [|part parts IH]; intros tbl Hwf.
  - by exists tbl.
  - assert (Hrest : forall p, p ∈ parts -> Py.contains ":" p = true ->
                              is_Some (token_binding p)).
    { intros p Hp. apply Hwf. by right. }
    simpl. destruct (Py.contains ":" part) eqn:Hc.
    + destruct (Hwf part) as [[k x] Hb]; [by left|done|].
      rewrite (parse_part_binding _ _ _ _ Hb). simpl.
      destruct (IH (<[k := Some x]> tbl) Hrest) as (tbl' & -> & Hlk).
      exists tbl'. split; [done|]. intros key.
      rewrite Hlk, last_binding_cons.
      destruct (last_binding key parts); [done|].
      unfold binding_step. rewrite Hb.
      destruct (String.eqb_spec k key) as [->|Hne].
      * by rewrite lookup_insert_eq.
      * by rewrite lookup_insert_ne.
    + rewrite parse_part_skip by done. simpl.
      destruct (IH tbl Hrest) as (tbl' & -> & Hlk).
      exists tbl'. split; [done|]. intros key.
      rewrite Hlk, last_binding_cons.
      destruct (last_binding key parts); [done|].
      unfold binding_step.
      destruct (token_binding part) as [b|] eqn:Hb; [|done].
      apply token_binding_colon in Hb. congruence.
Qed.

Lemma tokens_well_formed_spec s :
  tokens_well_formed s = true ->
  forall part, part ∈ Py.split "," s -> Py.contains ":" part = true ->
               is_Some (token_binding part).
Proof.
  unfold tokens_well_formed. rewrite forallb_forall.
  intros H part Hin Hc. apply list_elem_of_In, H in Hin.
  rewrite Hc in Hin. simpl in Hin. by apply bool_decide_eq_true in Hin.
Qed.

Lemma token_raises_part tbl part :
  token_raises part = true -> parse_part tbl part = Raise ValueError.
Proof.
  unfold token_raises, parse_part. destruct (Py.contains ":" part); [|done].
  destruct (Py.split ":" part) as [|k [|v [|? ?]]]; try done.
  simpl. by destruct (Py.float v) as [x|[]|].
Qed.

Lemma token_raises_no_binding part :
  token_raises part = true ->
  Py.contains ":" part = true /\ token_binding part = None.
Proof.
  unfold token_raises, token_binding. destruct (Py.contains ":" part); [|done].
  destruct (Py.split ":" part) as [|k [|v [|? ?]]]; try done.
  simpl. by destruct (Py.float v) as [x|[]|].
Qed.

(** ** C3: tokens without a separator are skipped, other malformed tokens raise *)

(** C3, as stated, fails: parsing the override string ["P:x"] raises
    [ValueError] at [float("x")], so it is not true that parsing never
    raises. *)
Lemma malformed_value_raises :
  parse_nominals "P:x" = Raise ValueError
  /\ ~ (forall s e, parse_nominals s <> Raise e).
Proof.
  assert (H : parse_nominals "P:x" = Raise ValueError) by (vm_compute; reflexivity).
  split; [exact H|]. intros Hnever. exact (Hnever _ _ H).
Qed.

(** C3 (amended): for every override string, the tokens that hold no [":"]
    are silently ignored: parsing gives what it gives on the string's
    tokens that hold a [":"], so a separator-less token neither raises nor
    changes the table, and a string of such tokens only yields the
    defaults.  A token that holds a [":"] but does not split into exactly
    two fields, or whose value field [float] rejects ([token_raises]),
    raises [ValueError], and no table is produced for a string that holds
    such a token. *)
Theorem separatorless_tokens_skipped (s : string) :
  parse_nominals s
    = parse_parts default_nom
        (filter (fun part => Py.contains ":" part = true) (Py.split "," s))
  /\ (forall tbl part, Py.contains ":" part = false -> parse_part tbl part = Ok tbl)
  /\ (Forall (fun part => Py.contains ":" part = false) (Py.split "," s) ->
      parse_nominals s = Ok default_nom)
  /\ (forall tbl part,
        token_raises part = true -> parse_part tbl part = Raise ValueError)
  /\ (forall part,
        part ∈ Py.split "," s -> token_raises part = true ->
        forall tbl, parse_nominals s <> Ok tbl).
Proof.
  repeat split.
  - apply parse_parts_filter.
  - intros tbl part. apply parse_part_skip.
  - intros Hall. unfold parse_nominals. rewrite parse_parts_filter.
    replace (filter _ _) with (@nil string); [done|].
    symmetry. induction Hall as [|p ps Hp _ IH]; [done|].
    rewrite filter_cons. destruct (decide (Py.contains ":" p = true)); [congruence|done].
  - intros tbl part Hraise. by apply token_raises_part.
  - intros part Hin Hraise tbl.
    apply token_raises_no_binding in Hraise as [Hc Hb].
    by apply (parse_parts_bad _ _ part).
Qed.

Lemma separatorless_tokens_skipped_witness :
  parse_nominals "P2,N:5,,Q" = parse_parts default_nom ["N:5"]
  /\ parse_nominals "P2,q" = Ok default_nom
  /\ parse_part default_nom "R:5:6" = Raise ValueError
  /\ forall tbl, parse_nominals "P2,N:five" <> Ok tbl.
Proof.
  split; [|split; [|split]].
  - exact (proj1 (separatorless_tokens_skipped "P2,N:5,,Q")).
  - apply (proj1 (proj2 (proj2 (separatorless_tokens_skipped "P2,q")))).
    vm_compute. repeat constructor.
  - apply (proj1 (proj2 (proj2 (proj2 (separatorless_tokens_skipped ""))))).
    reflexivity.
  - apply (proj2 (proj2 (proj2 (proj2 (separatorless_tokens_skipped "P2,N:five")))) "N:five").
    + vm_compute. right. left.
    + reflexivity.
Defined.

(** ** C6: the effective table *)

(** C6, as stated, fails: for the override string ["P:2,R:x"] the
    described table exists (pawn 2, rook at its default 5, since [R:x] is
    not a well-formed token), but the code raises [ValueError] and builds
    no table. *)
Lemma table_not_built_on_bad_value :
  spec_lookup "P:2,R:x" "P" = Some (Some 2)
  /\ spec_lookup "P:2,R:x" "R" = Some (Some 5)
  /\ parse_nominals "P:2,R:x" = Raise ValueError
  /\ ~ (forall s, exists tbl,
          parse_nominals s = Ok tbl /\ forall key, tbl !! key = spec_lookup s key).
Proof.
  assert (H : parse_nominals "P:2,R:x" = Raise ValueError) by (vm_compute; reflexivity).
  split; [by vm_compute|split; [by vm_compute|split; [exact H|]]].
  intros Hall. destruct (Hall "P:2,R:x") as (tbl & Htbl & _). congruence.
Qed.

(** C6 (amended): for every override string in which each token that
    holds a [":"] is a well-formed [SYMBOL:VALUE] pair, the code builds a
    table, and the table holds, for every symbol, the value of the last
    well-formed token that names the symbol (after [strip] and [upper]),
    or else what the defaults [P:1, N:3, B:3, R:5, Q:7, K:None] hold for
    it; so the nominal of a piece kind that no token names is its default. *)
Theorem effective_table (s : string) :
  tokens_well_formed s = true ->
  exists tbl,
    parse_nominals s = Ok tbl
    /\ (forall key, tbl !! key = spec_lookup s key)
    /\ (forall t, nominal_map tbl t
                  = match last_binding (type_key t) (Py.split "," s) with
                    | Some x => Some x
                    | None => nominal_map default_nom t
                    end).
Proof.
  intros Hwf. unfold parse_nominals.
  destruct (parse_parts_lookup default_nom (Py.split "," s)) as (tbl & Hp & Hlk).
  { by apply tokens_well_formed_spec. }
  exists tbl. split; [done|]. split.
  - intros key. unfold spec_lookup. apply Hlk.
  - intros t. unfold nominal_map, dict_get. rewrite Hlk.
    by destruct (last_binding (type_key t) (Py.split "," s)).
Qed.

Lemma effective_table_witness :
  tokens_well_formed "P:2,N:5" = true
  /\ exists tbl,
       parse_nominals "P:2,N:5" = Ok tbl
       /\ (forall key, tbl !! key = spec_lookup "P:2,N:5" key)
       /\ (forall t, nominal_map tbl t
                     = match last_binding (type_key t) (Py.split "," "P:2,N:5") with
                       | Some x => Some x
                       | None => nominal_map default_nom t
                       end).
Proof.
  split; [reflexivity|]. apply (effective_table "P:2,N:5"). reflexivity.
Defined.

Example P2N5_leaves_other_defaults :
  exists tbl, parse_nominals "P:2,N:5" = Ok tbl
    /\ nominal_map tbl Chess.PAWN = Some 2 /\ nominal_map tbl Chess.KNIGHT = Some 5
    /\ nominal_map tbl Chess.BISHOP = Some 3 /\ nominal_map tbl Chess.ROOK = Some 5
    /\ nominal_map tbl Chess.QUEEN = Some 7 /\ nominal_map tbl Chess.KING = None.
Proof. eexists. split; [vm_compute; reflexivity|]. by vm_compute. Qed.

Example last_occurrence_wins :
  exists tbl, parse_nominals "p:2, P :4,x:9" = Ok tbl
    /\ nominal_map tbl Chess.PAWN = Some 4 /\ tbl !! "X" = Some (Some 9).
Proof. eexists. split; [vm_compute; reflexivity|]. by vm_compute. Qed.

Lemma parse_ok_well_formed s tbl :
  parse_nominals s = Ok tbl -> tokens_well_formed s = true.
Proof.
  intros Hok. unfold tokens_well_formed. apply forallb_forall.
  intros part Hin%list_elem_of_In.
  destruct (Py.contains ":" part) eqn:Hc; [|done]. simpl.
  apply bool_decide_eq_true.
  destruct (token_binding part) eqn:Hb; [by eexists|].
  by destruct (parse_parts_bad default_nom _ part Hin Hc Hb tbl).
Qed.

Lemma parse_ok_nominal s tbl t :
  parse_nominals s = Ok tbl ->
  nominal_map tbl t = match last_binding (type_key t) (Py.split "," s) with
                      | Some x => Some x
                      | None => nominal_map default_nom t
                      end.
Proof.
  intros Hok. unfold parse_nominals in Hok.
  destruct (parse_parts_lookup default_nom (Py.split "," s)) as (tbl' & Hp & Hlk).
  { apply tokens_well_formed_spec. by eapply parse_ok_well_formed. }
  assert (tbl' = tbl) as -> by congruence.
  unfold nominal_map, dict_get. rewrite Hlk.
  by destruct (last_binding (type_key t) (Py.split "," s)).
Qed.

(** ** The attribution loop *)

Lemma ofold_ext {A B : Type} (f g : B -> A -> outcome B) (l : list A) (acc : B) :
  (forall a x, x ∈ l -> f a x = g a x) -> ofold f l acc = ofold g l acc.
Proof.
  revert acc. induction l as [|x l IH]; intros acc Hfg; [done|].
  simpl. rewrite Hfg by left. destruct (g acc x); simpl; [|done..].
  apply IH. intros a' y Hy. apply Hfg. by right.
Qed.

Lemma SQUARES_lookup i : (i < 64)%nat -> Chess.SQUARES !! i = Some i.
Proof. intros Hi. unfold Chess.SQUARES. by rewrite lookup_seq_lt. Qed.

Lemma SQUARES_length : length Chess.SQUARES = 64%nat.
Proof. reflexivity. Qed.

Lemma truthy_nonzero x : Py.float_truthy x = true -> ~ x == 0.
Proof.
  unfold Py.float_truthy. intros H Hx. apply Qeq_bool_iff in Hx.
  rewrite Hx in H. done.
Qed.

Lemma falsy_zero x : x == 0 -> Py.float_truthy x = false.
Proof. unfold Py.float_truthy. intros Hx%Qeq_bool_iff. by rewrite Hx. Qed.

(** ** The plain grid *)

Lemma py_index_nth (l : list Q) (i : nat) :
  (i < length l)%nat -> py_index l i = Ok (nth i l 0).
Proof.
  intros Hi. unfold py_index. rewrite nth_lookup.
  destruct (lookup_lt_is_Some_2 l i Hi) as [x ->]. done.
Qed.

Lemma format_row_cells (l : list Q) (r : nat) :
  length l = 64%nat -> (r < 8)%nat ->
  format_row l r
  = Ok (Fmt.join " " (map (fun f => Fmt.format_f false 6 3 (nth (Chess.square f r) l 0))
                          (seq 0 8))).
Proof.
  intros Hl Hr. unfold format_row.
  rewrite (ofold_snoc_map (format_cell l r)
             (fun f => Fmt.format_f false 6 3 (nth (Chess.square f r) l 0))); [done|].
  intros f Hf%elem_of_seq. unfold format_cell, Chess.square.
  rewrite py_index_nth by lia. done.
Qed.

Lemma format_matrix_grid (l : list Q) :
  length l = 64%nat ->
  format_matrix l
  = Ok (Fmt.join (String (ascii_of_nat 10) "")
          (map (fun r => Fmt.join " "
                           (map (fun f => Fmt.format_f false 6 3
                                            (nth (Chess.square f r) l 0))
                                (seq 0 8)))
               ranks_down)).
Proof.
  intros Hl. unfold format_matrix.
  rewrite (ofold_snoc_map (format_row l)
             (fun r => Fmt.join " "
                         (map (fun f => Fmt.format_f false 6 3
                                          (nth (Chess.square f r) l 0))
                              (seq 0 8)))); [done|].
  intros r Hr. apply format_row_cells; [done|].
  unfold ranks_down in Hr.
  repeat (apply elem_of_cons in Hr as [->|Hr]; [lia|]).
  by apply elem_of_nil in Hr.
Qed.

Lemma square_name_file_rank (f r : nat) :
  (f < 8)%nat ->
  Chess.square_name (Chess.square f r)
  = nth f Chess.FILE_NAMES "" +:+ nth r Chess.RANK_NAMES "".
Proof.
  intros Hf. unfold Chess.square_name, Chess.square, Chess.square_file, Chess.square_rank.
  replace ((r * 8 + f) `mod` 8)%nat with f
    by (rewrite Nat.add_comm, Nat.Div0.mod_add; symmetry; apply Nat.mod_small; lia).
  replace ((r * 8 + f) `div` 8)%nat with r
    by (rewrite Nat.div_add_l by lia; rewrite Nat.div_small by lia; lia).
  done.
Qed.

Section AttributionFacts.
Variable Features : Type.
Variable board_to_features : Chess.Board -> Features.
Variable planes : Features -> nat -> nat -> Q.
Variable model : Features -> Q * (nat -> nat -> Q).

Local Abbreviation contrib := (contrib Features board_to_features planes model).
Local Abbreviation square_value := (square_value Features board_to_features planes model).
Local Abbreviation contrib_list := (contrib_list Features board_to_features planes model).

Lemma adjust_falsy normalize scale_piece nominal val :
  nominal_truthy nominal = false ->
  adjust normalize scale_piece nominal val = Ok val.
Proof.
  intros H. unfold adjust. destruct nominal as [x|]; [|done].
  rewrite H, !andb_false_r. done.
Qed.

Lemma adjust_total normalize scale_piece nominal val :
  exists v, adjust normalize scale_piece nominal val = Ok v.
Proof.
  destruct (nominal_truthy nominal) eqn:Ht.
  - destruct nominal as [x|]; [|done]. unfold adjust. rewrite Ht, !andb_true_r.
    unfold Py.truediv. simpl in Ht. unfold Py.float_truthy in Ht.
    destruct (Qeq_bool x 0); [done|].
    destruct normalize, scale_piece; simpl; eauto.
  - rewrite adjust_falsy by done. eauto.
Qed.

Lemma adjust_both x val :
  exists v, adjust true true (Some x) val = Ok v /\ v == val.
Proof.
  unfold adjust. simpl. unfold Py.truediv.
  destruct (Py.float_truthy x) eqn:Ht.
  - pose proof (truthy_nonzero _ Ht) as Hx.
    unfold Py.float_truthy in Ht. destruct (Qeq_bool x 0); [done|]. simpl.
    eexists. split; [done|]. rewrite Qmult_comm. by apply Qmult_div_r.
  - simpl. by eexists.
Qed.

Lemma square_value_total board tbl normalize scale_piece sq :
  exists v, square_value board tbl normalize scale_piece sq = Ok v.
Proof.
  unfold square_value.
  destruct (Chess.piece_at board sq); [apply adjust_total|by eexists].
Qed.

Lemma contrib_list_rows board tbl normalize scale_piece :
  exists l, contrib_list board tbl normalize scale_piece = Ok l
    /\ Forall2 (fun sq v => square_value board tbl normalize scale_piece sq = Ok v)
               Chess.SQUARES l.
Proof.
  unfold contrib_list.
  destruct (ofold_snoc_total (square_value board tbl normalize scale_piece)
              Chess.SQUARES []) as (l & Hl & Hall).
  { intros sq _. apply square_value_total. }
  exists l. by split.
Qed.

Lemma contrib_list_lookup board tbl normalize scale_piece l i :
  contrib_list board tbl normalize scale_piece = Ok l -> (i < 64)%nat ->
  exists v, l !! i = Some v
            /\ square_value board tbl normalize scale_piece i = Ok v.
Proof.
  intros Hl Hi.
  destruct (contrib_list_rows board tbl normalize scale_piece) as (l' & Hl' & Hall).
  assert (l' = l) as -> by congruence.
  destruct (Forall2_lookup_l _ _ _ i i Hall (SQUARES_lookup i Hi)) as (v & Hv & Hsv).
  by exists v.
Qed.

(** ** C4: 64 rows, zero on empty squares *)

(** C4: for every position (and every table and flag setting) the
    attribution loop returns a list of exactly 64 values, the value at
    index [i] being the one computed for square [i] of [chess.SQUARES],
    and the value of every unoccupied square is exactly 0. *)
Theorem sixty_four_rows board tbl normalize scale_piece :
  exists l,
    contrib_list board tbl normalize scale_piece = Ok l
    /\ length l = 64%nat
    /\ Forall2 (fun sq v => square_value board tbl normalize scale_piece sq = Ok v)
               Chess.SQUARES l
    /\ (forall i, (i < 64)%nat -> Chess.piece_at board i = None -> l !! i = Some 0).
Proof.
  destruct (contrib_list_rows board tbl normalize scale_piece) as (l & Hl & Hall).
  exists l. split; [done|]. split; [|split; [done|]].
  - by rewrite <- (Forall2_length _ _ _ Hall).
  - intros i Hi Hnone.
    destruct (contrib_list_lookup _ _ _ _ _ _ Hl Hi) as (v & Hv & Hsv).
    unfold square_value in Hsv. rewrite Hnone in Hsv. congruence.
Qed.

(** ** Normalize and scale together, over exact arithmetic *)

(** Over exact arithmetic dividing by the nominal and multiplying by it
    cancel: with both flags set, every square occupied by a piece whose
    kind has a nominal reports the raw value [contrib[sq]] (a zero
    nominal is applied in neither step). *)
Lemma normalize_then_scale_exact board tbl sq p x :
  (sq < 64)%nat ->
  Chess.piece_at board sq = Some p ->
  nominal_map tbl (Chess.piece_type p) = Some x ->
  exists l v,
    contrib_list board tbl true true = Ok l
    /\ l !! sq = Some v
    /\ v == contrib board sq.
Proof.
  intros Hsq Hp Hx.
  destruct (contrib_list_rows board tbl true true) as (l & Hl & _).
  destruct (contrib_list_lookup _ _ _ _ _ _ Hl Hsq) as (v & Hv & Hsv).
  exists l, v. split; [done|]. split; [done|].
  unfold square_value in Hsv. rewrite Hp, Hx in Hsv.
  destruct (adjust_both x (contrib board sq)) as (v' & Hv' & Heq).
  congruence.
Qed.

(** ** C2: king squares *)

(** C2 (amended): for every position and flag setting, each king square
    reports the raw attribution whenever the effective table gives the
    king no nominal or a zero one; that is the case, in particular, when
    no well-formed token of the override string names [K].  (An override
    token [K:v] with [v] nonzero, as in the script's own default string,
    gives the king a nominal, and the adjustments then apply to king
    squares as to any other.) *)
Theorem king_raw_without_nominal s tbl :
  parse_nominals s = Ok tbl ->
  (last_binding "K" (Py.split "," s) = None ->
   nominal_map tbl Chess.KING = None)
  /\ (nominal_truthy (nominal_map tbl Chess.KING) = false ->
      forall board normalize scale_piece sq p,
        (sq < 64)%nat ->
        Chess.piece_at board sq = Some p ->
        Chess.piece_type p = Chess.KING ->
        exists l, contrib_list board tbl normalize scale_piece = Ok l
                  /\ l !! sq = Some (contrib board sq)).
Proof.
  intros Hok. split.
  - intros Hnone. rewrite (parse_ok_nominal s tbl Chess.KING Hok).
    change (type_key Chess.KING) with "K". by rewrite Hnone.
  - intros Hfalsy board normalize scale_piece sq p Hsq Hp Hking.
    destruct (contrib_list_rows board tbl normalize scale_piece) as (l & Hl & _).
    destruct (contrib_list_lookup _ _ _ _ _ _ Hl Hsq) as (v & Hv & Hsv).
    exists l. split; [done|].
    unfold square_value in Hsv. rewrite Hp, Hking in Hsv.
    rewrite adjust_falsy in Hsv by done. congruence.
Qed.

(** ** C10: a zero nominal *)

Lemma square_value_zero_nominal board tbl t z normalize scale_piece sq :
  nominal_map tbl t = Some z -> z == 0 ->
  square_value board tbl normalize scale_piece sq
  = square_value board (<[type_key t := None]> tbl) normalize scale_piece sq.
Proof.
  intros Hz Hz0. unfold square_value.
  destruct (Chess.piece_at board sq) as [p|]; [|done].
  destruct (decide (Chess.piece_type p = t)) as [->|Hne].
  - rewrite Hz. unfold nominal_map at 1, dict_get. rewrite lookup_insert_eq.
    rewrite !adjust_falsy; [done..|]. simpl. by apply falsy_zero.
  - unfold nominal_map, dict_get. rewrite lookup_insert_ne; [done|].
    by destruct t, (Chess.piece_type p).
Qed.

(** C10: if the effective override token for a piece kind assigns the
    nominal 0, then for every position and flag setting the attribution
    loop returns (no division by zero is raised), gives what it gives
    when the kind has no nominal at all, and reports the raw attribution
    on every square occupied by that kind: neither the division nor the
    multiplication is applied there. *)
Theorem zero_nominal_like_none s tbl t z :
  parse_nominals s = Ok tbl ->
  last_binding (type_key t) (Py.split "," s) = Some z ->
  z == 0 ->
  nominal_map tbl t = Some z
  /\ forall board normalize scale_piece,
       contrib_list board tbl normalize scale_piece
       = contrib_list board (<[type_key t := None]> tbl) normalize scale_piece
       /\ exists l,
            contrib_list board tbl normalize scale_piece = Ok l
            /\ forall sq p,
                 (sq < 64)%nat ->
                 Chess.piece_at board sq = Some p ->
                 Chess.piece_type p = t ->
                 l !! sq = Some (contrib board sq).
Proof.
  intros Hok Hlast Hz0.
  assert (Hz : nominal_map tbl t = Some z).
  { rewrite (parse_ok_nominal s tbl t Hok). by rewrite Hlast. }
  split; [done|]. intros board normalize scale_piece. split.
  - unfold contrib_list. apply ofold_ext. intros acc sq _.
    by rewrite (square_value_zero_nominal board tbl t z).
  - destruct (contrib_list_rows board tbl normalize scale_piece) as (l & Hl & _).
    exists l. split; [done|]. intros sq p Hsq Hp Ht.
    destruct (contrib_list_lookup _ _ _ _ _ _ Hl Hsq) as (v & Hv & Hsv).
    unfold square_value in Hsv. rewrite Hp, Ht, Hz in Hsv.
    rewrite adjust_falsy in Hsv by (simpl; by apply falsy_zero). congruence.
Qed.

(** ** The order of the rows and the plain grid, as the code has them *)

(** For every position the 64 attribution rows are index-aligned with
    the rows of the per-square scores and with [chess.SQUARES]: row [i]
    is computed for board square [i] and, when the square is occupied,
    from row [i] of the scores.  Square [8 r + f] is the square of file
    [f] (a to h) and rank [r + 1], so the order is rank 1 up to rank 8,
    file a to h within each rank: row 0 is a1 and row 56 is a8.  The
    plain grid prints these rows with rank 8 as its first line and rank
    1 as its last, files a to h left to right, each value in the format
    [6.3f]. *)
Theorem rows_in_chess_square_order board tbl normalize scale_piece :
  exists l grid,
    contrib_list board tbl normalize scale_piece = Ok l
    /\ length l = 64%nat
    /\ Forall2 (fun sq v => square_value board tbl normalize scale_piece sq = Ok v)
               Chess.SQUARES l
    /\ (forall i p,
          Chess.piece_at board i = Some p ->
          square_value board tbl normalize scale_piece i
          = adjust normalize scale_piece (nominal_map tbl (Chess.piece_type p))
              (snd (model (board_to_features board)) i
                   (argmax12 (planes (board_to_features board) i))))
    /\ (forall f r, (f < 8)%nat ->
          Chess.SQUARES !! (8 * r + f)%nat
            = (if decide (r < 8)%nat then Some (Chess.square f r) else None)
          /\ Chess.square_name (Chess.square f r)
             = nth f Chess.FILE_NAMES "" +:+ nth r Chess.RANK_NAMES "")
    /\ Chess.square_name 0 = "a1"
    /\ Chess.square_name 56 = "a8"
    /\ format_matrix l = Ok grid
    /\ grid = Fmt.join (String (ascii_of_nat 10) "")
                (map (fun r => Fmt.join " "
                                 (map (fun f => Fmt.format_f false 6 3
                                                  (nth (Chess.square f r) l 0))
                                      [0; 1; 2; 3; 4; 5; 6; 7]%nat))
                     [7; 6; 5; 4; 3; 2; 1; 0]%nat).
Proof.
  destruct (contrib_list_rows board tbl normalize scale_piece) as (l & Hl & Hall).
  assert (Hlen : length l = 64%nat) by by rewrite <- (Forall2_length _ _ _ Hall).
  exists l. eexists. split; [done|]. split; [done|]. split; [done|].
  split; [|split; [|split; [done|split; [done|split; [by apply format_matrix_grid|done]]]]].
  - intros i p Hp. unfold square_value. by rewrite Hp.
  - intros f r Hf. split; [|by apply square_name_file_rank].
    unfold Chess.square. case_decide.
    + rewrite SQUARES_lookup by lia. f_equal. lia.
    + apply lookup_ge_None. rewrite SQUARES_length. lia.
Qed.

End AttributionFacts.

(** ** Concrete runs with the stub evaluator *)

Example normalize_then_scale_exact_rook :
  let board := Chess.from_placement "4k3/8/8/8/8/8/8/R3K3" in
  (0 < 64)%nat
  /\ Chess.piece_at board 0 = Some (Chess.mkPiece Chess.ROOK true)
  /\ nominal_map default_nom Chess.ROOK = Some 5
  /\ exists l v,
       contrib_list Stub.Features Stub.board_to_features Stub.planes Stub.model
         board default_nom true true = Ok l
       /\ l !! 0%nat = Some v
       /\ v == contrib Stub.Features Stub.board_to_features Stub.planes Stub.model
                board 0.
Proof.
  intros board.
  assert (H1 : (0 < 64)%nat) by lia.
  assert (H2 : Chess.piece_at board 0 = Some (Chess.mkPiece Chess.ROOK true))
    by (vm_compute; reflexivity).
  assert (H3 : nominal_map default_nom (Chess.piece_type (Chess.mkPiece Chess.ROOK true))
               = Some 5) by (vm_compute; reflexivity).
  split; [exact H1|]. split; [exact H2|]. split; [exact H3|].
  exact (normalize_then_scale_exact Stub.Features Stub.board_to_features
           Stub.planes Stub.model board default_nom 0
           (Chess.mkPiece Chess.ROOK true) 5 H1 H2 H3).
Qed.

(** C2, as stated, fails: with the script's own default override string
    (which holds [K:4.6]) and the scale-piece flag set, the white king on
    e1 reports 4.6 times its raw attribution. *)
Lemma king_scaled_by_default_override :
  let board := Chess.from_placement "4k3/8/8/8/8/8/8/4K3" in
  let raw := contrib Stub.Features Stub.board_to_features Stub.planes Stub.model
               board 4 in
  exists tbl l,
    parse_nominals piece_nominals_default = Ok tbl
    /\ Chess.piece_at board 4 = Some (Chess.mkPiece Chess.KING true)
    /\ contrib_list Stub.Features Stub.board_to_features Stub.planes Stub.model
         board tbl false true = Ok l
    /\ l !! 4%nat = Some (raw * (46 # 10))
    /\ ~ (raw * (46 # 10) == raw).
Proof.
  intros board raw. eexists. eexists.
  split; [vm_compute; reflexivity|].
  split; [vm_compute; reflexivity|].
  split; [vm_compute; reflexivity|].
  split; [vm_compute; reflexivity|].
  vm_compute. discriminate.
Qed.

Lemma king_raw_without_nominal_witness :
  let s := "P:2,N:5" in
  let tbl := <["N" := Some 5]> (<["P" := Some 2]> default_nom) in
  let board := Chess.from_placement "4k3/8/8/8/8/8/8/4K3" in
  parse_nominals s = Ok tbl
  /\ last_binding "K" (Py.split "," s) = None
  /\ nominal_map tbl Chess.KING = None
  /\ exists l,
       contrib_list Stub.Features Stub.board_to_features Stub.planes Stub.model
         board tbl true true = Ok l
       /\ l !! 4%nat
          = Some (contrib Stub.Features Stub.board_to_features Stub.planes Stub.model
                    board 4).
Proof.
  intros s tbl board.
  assert (Hok : parse_nominals s = Ok tbl) by (vm_compute; reflexivity).
  assert (Hlast : last_binding "K" (Py.split "," s) = None) by (vm_compute; reflexivity).
  pose proof (king_raw_without_nominal Stub.Features Stub.board_to_features
                Stub.planes Stub.model s tbl Hok) as [Hnone Hraw].
  split; [exact Hok|]. split; [exact Hlast|]. split; [exact (Hnone Hlast)|].
  apply (Hraw ltac:(vm_compute; reflexivity) board true true 4%nat
              (Chess.mkPiece Chess.KING true)).
  - lia.
  - vm_compute; reflexivity.
  - reflexivity.
Defined.

Lemma zero_nominal_like_none_witness :
  let s := "P:0" in
  let tbl := <["P" := Some 0]> default_nom in
  let board := Chess.from_placement "4k3/8/8/8/8/8/P7/4K3" in
  parse_nominals s = Ok tbl
  /\ last_binding "P" (Py.split "," s) = Some 0
  /\ nominal_map tbl Chess.PAWN = Some 0
  /\ exists l,
       contrib_list Stub.Features Stub.board_to_features Stub.planes Stub.model
         board tbl true true = Ok l
       /\ l !! 8%nat
          = Some (contrib Stub.Features Stub.board_to_features Stub.planes Stub.model
                    board 8).
Proof.
  intros s tbl board.
  assert (Hok : parse_nominals s = Ok tbl) by (vm_compute; reflexivity).
  assert (Hlast : last_binding (type_key Chess.PAWN) (Py.split "," s) = Some 0)
    by (vm_compute; reflexivity).
  assert (Hz : 0 == 0) by reflexivity.
  pose proof (zero_nominal_like_none Stub.Features Stub.board_to_features
                Stub.planes Stub.model s tbl Chess.PAWN 0 Hok Hlast Hz) as [Hnom Hall].
  split; [exact Hok|]. split; [exact Hlast|]. split; [exact Hnom|].
  destruct (Hall board true true) as [_ (l & Hl & Hraw)].
  exists l. split; [exact Hl|].
  apply (Hraw 8%nat (Chess.mkPiece Chess.PAWN true)).
  - lia.
  - vm_compute; reflexivity.
  - reflexivity.
Defined.

(** C1: the rows are not in the order the claim (and the comment of
    [format_matrix]) gives, "rank 8 down to rank 1, index 0 = a8".  On the
    position [k7/8/8/8/8/8/8/7K] the square a8 holds the black king and
    the value computed for it is 684 under the stub evaluator, but row 0
    of the attribution list is 0: row 0 belongs to the empty square a1,
    whose name [chess.square_name] gives for index 0.  So the rows do not
    follow the order of [spec_row_square]. *)
Lemma row_zero_is_a1_not_a8 :
  let board := Chess.from_placement "k7/8/8/8/8/8/8/7K" in
  Chess.square_name (spec_row_square 0) = "a8"
  /\ Chess.piece_at board (spec_row_square 0) = Some (Chess.mkPiece Chess.KING false)
  /\ Chess.square_name 0 = "a1"
  /\ Chess.piece_at board 0 = None
  /\ exists l,
       contrib_list Stub.Features Stub.board_to_features Stub.planes Stub.model
         board default_nom false false = Ok l
       /\ l !! 0%nat = Some 0
       /\ square_value Stub.Features Stub.board_to_features Stub.planes Stub.model
            board default_nom false false (spec_row_square 0) = Ok 684
       /\ ~ (forall i v, (i < 64)%nat -> l !! i = Some v ->
               square_value Stub.Features Stub.board_to_features Stub.planes
                 Stub.model board default_nom false false (spec_row_square i)
               = Ok v).
Proof.
  intros board.
  split; [reflexivity|]. split; [vm_compute; reflexivity|].
  split; [reflexivity|]. split; [vm_compute; reflexivity|].
  eexists. split; [vm_compute; reflexivity|].
  split; [reflexivity|]. split; [vm_compute; reflexivity|].
  intros Hall. specialize (Hall 0%nat 0 ltac:(lia) eq_refl).
  vm_compute in Hall. discriminate.
Qed.

Example grid_first_line_is_rank_8 :
  (do l <- contrib_list Stub.Features Stub.board_to_features Stub.planes Stub.model
             (Chess.from_placement "k7/8/8/8/8/8/8/7K") default_nom false false;
   do grid <- format_matrix l;
   Ok (head (Py.split (ascii_of_nat 10) grid)))
  = Ok (Some "684.000  0.000  0.000  0.000  0.000  0.000  0.000  0.000").
Proof. vm_compute. reflexivity. Qed.

(** ** Rounding to binary64 *)

Lemma pow2_pos (k : Z) : 0 < F64.pow2 k.
Proof. apply Qpower_0_lt. reflexivity. Qed.

Lemma pow2_add (a b : Z) : F64.pow2 (a + b) == F64.pow2 a * F64.pow2 b.
Proof. apply Qpower_plus. discriminate. Qed.

Lemma pow2_le (a b : Z) : (a <= b)%Z -> F64.pow2 a <= F64.pow2 b.
Proof. intros H. apply Qpower_le_compat_l; [exact H|discriminate]. Qed.

Lemma pow2_inject (k : Z) : (0 <= k)%Z -> inject_Z (2 ^ k) == F64.pow2 k.
Proof. intros H. unfold F64.pow2. by rewrite Zpower_Qpower. Qed.

(** The nearest integer is within one half. *)
Lemma round_half_even_near (a : Q) :
  Qabs (inject_Z (Fmt.round_half_even a) - a) <= 1 # 2.
Proof.
  destruct a as [n d]. unfold Fmt.round_half_even. cbn [Qnum Qden].
  pose proof (Z.div_mod n (Z.pos d) ltac:(lia)) as Hdm.
  pose proof (Z.mod_pos_bound n (Z.pos d) ltac:(lia)) as Hr.
  set (k := (n / Z.pos d)%Z) in *. set (r := (n mod Z.pos d)%Z) in *.
  apply Qabs_Qle_condition.
  assert (Hk : (2 * r < Z.pos d)%Z \/ (2 * r = Z.pos d)%Z ->
               - (1 # 2) <= inject_Z k - (n # d) <= 1 # 2).
  { intros H. unfold Qle, Qminus, Qplus, Qopp, inject_Z. cbn [Qnum Qden]. lia. }
  assert (Hk1 : (Z.pos d < 2 * r)%Z \/ (2 * r = Z.pos d)%Z ->
                - (1 # 2) <= inject_Z (k + 1) - (n # d) <= 1 # 2).
  { intros H. unfold Qle, Qminus, Qplus, Qopp, inject_Z. cbn [Qnum Qden]. lia. }
  destruct (Z.ltb_spec (2 * r) (Z.pos d)); [apply Hk; by left|].
  destruct (Z.ltb_spec (Z.pos d) (2 * r)); [apply Hk1; by left|].
  assert (2 * r = Z.pos d)%Z by lia.
  destruct (Z.even k); [apply Hk; by right|apply Hk1; by right].
Qed.

(** [ilog2] does not overshoot. *)
Lemma ilog2_le (a : Q) : 0 < a -> F64.pow2 (F64.ilog2 a) <= a.
Proof.
  intros Ha. unfold F64.ilog2.
  set (k := (Z.log2 (Qnum a) - Z.log2 (Z.pos (Qden a)))%Z).
  destruct (Qle_bool (F64.pow2 k) a) eqn:E; [by apply Qle_bool_iff|].
  destruct a as [n d]. cbn [Qnum Qden] in k.
  assert (Hn : (0 < n)%Z) by (unfold Qlt in Ha; simpl in Ha; lia).
  pose proof (Z.log2_spec n Hn) as [Hlo _].
  pose proof (Z.log2_spec (Z.pos d) ltac:(lia)) as [_ Hhi].
  pose proof (Z.log2_nonneg n) as Hln.
  pose proof (Z.log2_nonneg (Z.pos d)) as Hld.
  assert (Hlo' : F64.pow2 (Z.log2 n) <= inject_Z n).
  { rewrite <- pow2_inject by done. by rewrite <- Zle_Qle. }
  assert (Hhi' : inject_Z (Z.pos d) <= F64.pow2 (Z.succ (Z.log2 (Z.pos d)))).
  { rewrite <- pow2_inject by lia. rewrite <- Zle_Qle. lia. }
  assert (Hsplit : F64.pow2 (Z.log2 n)
                   == F64.pow2 (k - 1) * F64.pow2 (Z.succ (Z.log2 (Z.pos d)))).
  { rewrite <- pow2_add. unfold k.
    by replace (Z.log2 n - Z.log2 (Z.pos d) - 1 + Z.succ (Z.log2 (Z.pos d)))%Z
      with (Z.log2 n) by lia. }
  pose proof (pow2_pos (k - 1)) as Hp.
  assert (Hd : 0 < inject_Z (Z.pos d)) by (rewrite <- (Zlt_Qlt 0); lia).
  rewrite (Qmake_Qdiv n d). apply Qle_shift_div_l; [done|].
  apply (Qle_trans _ (F64.pow2 (k - 1) * F64.pow2 (Z.succ (Z.log2 (Z.pos d))))).
  - apply Qmult_le_l; done.
  - by rewrite <- Hsplit.
Qed.

(** In the normal range the last place is at most [2^-52] times the number. *)
Lemma last_place_le (a : Q) :
  F64.pow2 (-1022) <= a -> F64.pow2 (F64.last_place a) <= a * F64.pow2 (-52).
Proof.
  intros Ha. unfold F64.last_place.
  assert (Hpos : 0 < a) by (eapply Qlt_le_trans; [apply (pow2_pos (-1022))|done]).
  pose proof (pow2_pos (-52)) as H52.
  destruct (Z.max_spec (F64.ilog2 a - 52) (-1074)) as [[_ ->]|[_ ->]].
  - change (-1074)%Z with (-1022 + -52)%Z. rewrite pow2_add.
    by apply Qmult_le_compat_r; [|apply Qlt_le_weak].
  - replace (F64.ilog2 a - 52)%Z with (F64.ilog2 a + -52)%Z by lia.
    rewrite pow2_add. apply Qmult_le_compat_r; [by apply ilog2_le|by apply Qlt_le_weak].
Qed.

(** Rounding a magnitude of the normal range moves it by at most the
    unit roundoff, relatively. *)
Lemma round_abs_near (a : Q) :
  F64.pow2 (-1022) <= a -> Qabs (F64.round_abs a - a) <= F64.u * a.
Proof.
  intros Ha. pose proof (last_place_le a Ha) as He. unfold F64.round_abs.
  set (e := F64.last_place a) in *.
  pose proof (pow2_pos e) as Hpe.
  pose proof (round_half_even_near (a / F64.pow2 e)) as Hnear.
  set (m := inject_Z (Fmt.round_half_even (a / F64.pow2 e))) in *.
  assert (Heq : m * F64.pow2 e - a == (m - a / F64.pow2 e) * F64.pow2 e).
  { field. intros H0. rewrite H0 in Hpe. by apply Qlt_irrefl in Hpe. }
  rewrite Heq, Qabs_Qmult, (Qabs_pos (F64.pow2 e)) by by apply Qlt_le_weak.
  apply (Qle_trans _ ((1 # 2) * F64.pow2 e)).
  - by apply Qmult_le_compat_r; [|apply Qlt_le_weak].
  - assert (Hu : F64.u == (1 # 2) * F64.pow2 (-52)).
    { unfold F64.u. change (-53)%Z with (-1 + -52)%Z. by rewrite pow2_add. }
    rewrite Hu, <- Qmult_assoc, (Qmult_comm (F64.pow2 (-52))).
    apply Qmult_le_l; done.
Qed.

Lemma negative_spec (q : Q) :
  if F64.negative q then Qabs q == - q else Qabs q == q.
Proof.
  unfold F64.negative. destruct (Z.ltb_spec (Qnum q) 0).
  - apply Qabs_neg. destruct q as [n d]. unfold Qle. simpl in *. lia.
  - apply Qabs_pos. destruct q as [n d]. unfold Qle. simpl in *. lia.
Qed.

Lemma max_finite_bound :
  F64.pow2 1023 * (1 + F64.u) * (1 + F64.u) <= F64.max_finite.
Proof. apply Qle_bool_iff. vm_compute. reflexivity. Qed.

(** A number whose magnitude is in the normal range, and at most
    [2^1023 (1 + u)], rounds to a finite float within the unit roundoff. *)
Lemma round_near (q : Q) :
  F64.pow2 (-1022) <= Qabs q ->
  Qabs q <= F64.pow2 1023 * (1 + F64.u) ->
  exists r, F64.round q = F64.Fin r /\ Qabs (r - q) <= F64.u * Qabs q.
Proof.
  intros Hlo Hhi. pose proof (round_abs_near _ Hlo) as Hnear.
  unfold F64.round. set (R := F64.round_abs (Qabs q)) in *.
  assert (Hu : 0 < F64.u) by apply pow2_pos.
  apply Qabs_Qle_condition in Hnear as [Hn1 Hn2].
  assert (HR : R <= F64.max_finite).
  { apply (Qle_trans _ (F64.pow2 1023 * (1 + F64.u) * (1 + F64.u)));
      [|apply max_finite_bound].
    apply (Qle_trans _ (Qabs q * (1 + F64.u))); [lra|].
    apply Qmult_le_compat_r; [done|lra]. }
  apply Qle_bool_iff in HR. rewrite HR. eexists. split; [done|].
  pose proof (negative_spec q) as Hs. apply Qabs_Qle_condition.
  destruct (F64.negative q); split; lra.
Qed.

(** A zero rounds to a zero. *)
Lemma round_zero (q : Q) : q == 0 -> exists r, F64.round q = F64.Fin r /\ r == 0.
Proof.
  intros Hq.
  assert (Hn : Qnum q = 0%Z) by (unfold Qeq in Hq; simpl in Hq; lia).
  assert (HR : F64.round_abs (Qabs q) == 0).
  { unfold F64.round_abs.
    set (s := Qabs q / F64.pow2 (F64.last_place (Qabs q))).
    assert (Hs : Qnum s = 0%Z).
    { unfold s, Qdiv, Qmult, Qabs. destruct q as [n d]. simpl in *. by rewrite Hn. }
    unfold Fmt.round_half_even. rewrite Hs. simpl.
    by rewrite Qmult_0_l. }
  unfold F64.round.
  assert (Hle : Qle_bool (F64.round_abs (Qabs q)) F64.max_finite = true).
  { apply Qle_bool_iff. rewrite HR. by apply Qle_bool_iff. }
  rewrite Hle. eexists. split; [done|].
  destruct (F64.negative q); rewrite HR; reflexivity.
Qed.

(** ** Floats of the script *)

Example float_overflows_to_inf : F64.float "1e400" = Ok (F64.Inf false).
Proof. vm_compute. reflexivity. Qed.

Example float_underflows_to_zero :
  (do x <- F64.float "1e-400"; Ok (F64.truthy x)) = Ok false.
Proof. vm_compute. reflexivity. Qed.

Example float_words :
  F64.float " -Infinity" = Ok (F64.Inf true) /\ F64.float "nan" = Ok F64.NaN.
Proof. split; vm_compute; reflexivity. Qed.

Example float_subnormal : F64.float "1e-320" = Ok (F64.Fin (2024 * F64.pow2 (-1074))).
Proof. vm_compute. reflexivity. Qed.

Example float_keeps_separator_characters :
  Py.float (String (ascii_of_nat 28) "1") = Raise ValueError
  /\ Py.strip (String (ascii_of_nat 28) "K") = "K".
Proof. split; vm_compute; reflexivity. Qed.

(** On the values of the runs below the operations of [F64] give what the
    kernel's binary64 division and multiplication give: normal and
    subnormal results, overflow, infinities and NaN. *)
Example binary64_agrees_with_kernel_floats :
  let four := F64.prim 4503599627370496 (-50) in
  let three := F64.prim 6755399441055744 (-51) in
  let n41 := F64.prim 4616189618054758 (-50) in
  let tiny := F64.prim 2024 (-1074) in
  let big := F64.prim 9007199254740991 971 in
  let inf := PrimFloat.infinity in
  forallb (fun ab => (F64.agree_div (fst ab) (snd ab)
                      && F64.agree_mul (PrimFloat.div (fst ab) (snd ab)) (snd ab)
                      && F64.agree_mul (fst ab) (snd ab))%bool)
    [(four, n41); (three, n41); (four, tiny); (four, inf); (tiny, four);
     (tiny, big); (big, tiny); (big, big); (big, n41); (tiny, tiny);
     (tiny, n41); (inf, inf); (inf, n41); (PrimFloat.opp three, n41);
     (PrimFloat.opp big, tiny); (n41, PrimFloat.opp inf)]
  = true.
Proof. vm_compute. reflexivity. Qed.

(** ** The attribution loop on binary64 values *)

Lemma float_adjust_total normalize scale_piece nominal val :
  exists v, Binary64.adjust normalize scale_piece nominal val = Ok v.
Proof.
  unfold Binary64.adjust. destruct nominal as [n|]; [|by eexists].
  unfold Binary64.nominal_truthy, F64.truthy, F64.truediv.
  destruct (F64.is_zero n); simpl.
  - rewrite !andb_false_r. by eexists.
  - rewrite !andb_true_r. destruct normalize, scale_piece; by eexists.
Qed.

(** Divide, then multiply: both roundings together move a value of the
    normal range by at most [2u + u^2], relatively. *)
Lemma float_adjust_both (n x : Q) :
  n == 0 \/ x == 0 \/ (F64.in_range x /\ F64.in_range (x / n)) ->
  exists v, Binary64.adjust true true (Some (F64.Fin n)) (F64.Fin x) = Ok (F64.Fin v)
            /\ Qabs (v - x) <= (2 * F64.u + F64.u * F64.u) * Qabs x.
Proof.
  intros Hcase.
  assert (Hu : 0 < F64.u) by apply pow2_pos.
  assert (Hu1 : F64.u <= 1 # 2) by (apply Qle_bool_iff; vm_compute; reflexivity).
  pose proof (Qabs_nonneg x) as Hx0.
  assert (Hself : Qabs (x - x) <= (2 * F64.u + F64.u * F64.u) * Qabs x).
  { assert (Hz : x - x == 0) by ring. rewrite Hz. simpl.
    apply Qmult_le_0_compat; [|done]. nra. }
  unfold Binary64.adjust, Binary64.nominal_truthy, F64.truthy, F64.truediv, F64.is_zero.
  cbn [andb obind].
  destruct (Qeq_bool n 0) eqn:En; cbn [negb obind]; [by exists x|].
  apply Qeq_bool_neq in En.
  destruct Hcase as [Hn|[Hx|[[Hx1 Hx2] [Hq1 Hq2]]]]; [done| |].
  - destruct (round_zero (x / n)) as (q1 & -> & Hq1).
    { rewrite Hx. unfold Qdiv. apply Qmult_0_l. }
    cbn [F64.mul].
    destruct (round_zero (q1 * n)) as (v & -> & Hv).
    { rewrite Hq1. apply Qmult_0_l. }
    exists v. split; [done|]. rewrite Hv, Hx. simpl.
    apply Qle_bool_iff. vm_compute. reflexivity.
  - assert (H21 : F64.pow2 (-1022) * 2 == F64.pow2 (-1021))
      by (apply Qeq_bool_iff; vm_compute; reflexivity).
    pose proof (pow2_pos (-1022)) as Hmin. pose proof (pow2_pos 1023) as Hmax.
    assert (Hux : F64.u * Qabs x <= (1 # 2) * Qabs x)
      by (apply Qmult_le_compat_r; done).
    destruct (round_near (x / n)) as (q1 & -> & Hnear1); [lra|nra|].
    cbn [F64.mul].
    assert (Hd : Qabs (q1 * n - x) <= F64.u * Qabs x).
    { assert (H1 : q1 * n - x == (q1 - x / n) * n) by (field; done).
      assert (H2 : Qabs x == Qabs (x / n) * Qabs n).
      { rewrite <- Qabs_Qmult. apply Qabs_wd. field. done. }
      rewrite H1, Qabs_Qmult, H2, Qmult_assoc.
      apply Qmult_le_compat_r; [done|apply Qabs_nonneg]. }
    pose proof (Qabs_triangle (q1 * n - x) x) as Hup.
    assert (Hsum : q1 * n - x + x == q1 * n) by ring.
    rewrite Hsum in Hup.
    pose proof (Qabs_triangle_reverse x (x - q1 * n)) as Hlow.
    assert (Hdiff : x - (x - q1 * n) == q1 * n) by ring.
    rewrite Hdiff, (Qabs_Qminus x (q1 * n)) in Hlow.
    pose proof (Qabs_nonneg (q1 * n)) as Hp0.
    assert (Huu : F64.u * Qabs (q1 * n) <= F64.u * (Qabs x + F64.u * Qabs x)).
    { apply Qmult_le_l; [done|lra]. }
    destruct (round_near (q1 * n)) as (v & -> & Hnear2); [lra|nra|].
    exists v. split; [done|].
    pose proof (Qabs_triangle (v - q1 * n) (q1 * n - x)) as Htri.
    assert (Hvx : v - q1 * n + (q1 * n - x) == v - x) by ring.
    rewrite Hvx in Htri. lra.
Qed.

Section Binary64Facts.
Variable Features : Type.
Variable board_to_features : Chess.Board -> Features.
Variable planes : Features -> nat -> nat -> Q.
Variable model : Features -> F64.t * (nat -> nat -> F64.t).

Local Abbreviation contrib64 :=
  (Binary64.contrib Features board_to_features planes model).
Local Abbreviation square_value64 :=
  (Binary64.square_value Features board_to_features planes model).
Local Abbreviation contrib_list64 :=
  (Binary64.contrib_list Features board_to_features planes model).

Lemma float_contrib_list_rows board tbl normalize scale_piece :
  exists l, contrib_list64 board tbl normalize scale_piece = Ok l
    /\ Forall2 (fun sq v => square_value64 board tbl normalize scale_piece sq = Ok v)
               Chess.SQUARES l.
Proof.
  unfold Binary64.contrib_list.
  destruct (ofold_snoc_total (square_value64 board tbl normalize scale_piece)
              Chess.SQUARES []) as (l & Hl & Hall).
  { intros sq _. unfold Binary64.square_value.
    destruct (Chess.piece_at board sq); [apply float_adjust_total|by eexists]. }
  exists l. by split.
Qed.

(** ** C5: normalize and scale together *)

(** C5 (amended): for every square of the board occupied by a piece
    whose kind has a finite nominal value [n], with both the normalize
    and the scale-piece flag set and a finite raw value [x]: when [n] is
    zero, or [x] is zero, or the magnitudes of [x] and of [x / n] lie
    between [2^-1021] and [2^1023], the script reports on that square a
    finite float [v] that equals [x] up to the two roundings,
    [|v - x| <= (2u + u^2) |x|] with [u = 2^-53]; and over exact
    arithmetic the same lines give [x] itself. *)
Theorem normalize_then_scale_cancels board tbl sq p n x :
  (sq < 64)%nat ->
  Chess.piece_at board sq = Some p ->
  Binary64.nominal_map tbl (Chess.piece_type p) = Some (F64.Fin n) ->
  contrib64 board sq = F64.Fin x ->
  n == 0 \/ x == 0 \/ (F64.in_range x /\ F64.in_range (x / n)) ->
  (exists l v,
     contrib_list64 board tbl true true = Ok l
     /\ l !! sq = Some (F64.Fin v)
     /\ Qabs (v - x) <= (2 * F64.u + F64.u * F64.u) * Qabs x)
  /\ (exists v', adjust true true (Some n) x = Ok v' /\ v' == x).
Proof.
  intros Hsq Hp Hn Hx Hrange. split; [|apply adjust_both].
  destruct (float_contrib_list_rows board tbl true true) as (l & Hl & Hall).
  destruct (Forall2_lookup_l _ _ _ sq sq Hall (SQUARES_lookup sq Hsq))
    as (v0 & Hv0 & Hsv).
  unfold Binary64.square_value in Hsv. rewrite Hp, Hn, Hx in Hsv.
  destruct (float_adjust_both n x Hrange) as (v & Hv & Hbound).
  exists l, v. split; [done|]. split; [congruence|done].
Qed.

End Binary64Facts.

Lemma normalize_then_scale_cancels_witness :
  let board := Chess.from_placement "4k3/8/8/8/8/8/8/N3K3" in
  let n := 4616189618054758 # 1125899906842624 in
  let tbl := <["N" := Some (F64.Fin n)]> Binary64.default_nom in
  F64.float "4.1" = Ok (F64.Fin n)
  /\ (0 < 64)%nat
  /\ Chess.piece_at board 0 = Some (Chess.mkPiece Chess.KNIGHT true)
  /\ Binary64.nominal_map tbl Chess.KNIGHT = Some (F64.Fin n)
  /\ Binary64.contrib Stub.Features Stub.board_to_features Stub.planes Stub.model64
       board 0 = F64.Fin 4
  /\ (F64.in_range 4 /\ F64.in_range (4 / n))
  /\ exists l v,
       Binary64.contrib_list Stub.Features Stub.board_to_features Stub.planes
         Stub.model64 board tbl true true = Ok l
       /\ l !! 0%nat = Some (F64.Fin v)
       /\ Qabs (v - 4) <= (2 * F64.u + F64.u * F64.u) * Qabs 4.
Proof.
  intros board n tbl.
  assert (H0 : F64.float "4.1" = Ok (F64.Fin n)) by (vm_compute; reflexivity).
  assert (H1 : (0 < 64)%nat) by lia.
  assert (H2 : Chess.piece_at board 0 = Some (Chess.mkPiece Chess.KNIGHT true))
    by (vm_compute; reflexivity).
  assert (H3 : Binary64.nominal_map tbl
                 (Chess.piece_type (Chess.mkPiece Chess.KNIGHT true))
               = Some (F64.Fin n)) by (vm_compute; reflexivity).
  assert (H4 : Binary64.contrib Stub.Features Stub.board_to_features Stub.planes
                 Stub.model64 board 0 = F64.Fin 4) by (vm_compute; reflexivity).
  assert (H5 : F64.in_range 4 /\ F64.in_range (4 / n)).
  { unfold F64.in_range. repeat split; apply Qle_bool_iff; vm_compute; reflexivity. }
  split; [exact H0|]. split; [exact H1|]. split; [exact H2|]. split; [exact H3|].
  split; [exact H4|]. split; [exact H5|].
  exact (proj1 (normalize_then_scale_cancels Stub.Features Stub.board_to_features
                  Stub.planes Stub.model64 board tbl 0
                  (Chess.mkPiece Chess.KNIGHT true) n 4 H1 H2 H3 H4
                  (or_intror (or_intror H5)))).
Defined.

(** C5, as stated, fails on the floats of the script.  A rook on a1 has
    the raw value [4.0] and both flags are set.  With the override
    [R:1e400] or [R:inf] the rook's nominal is the float infinity:
    [4.0 / inf] is [0.0] and [0.0 * inf] is NaN, so the square reports NaN.
    With [R:1e-320] the nominal is a positive subnormal number:
    [4.0 / 1e-320] overflows to infinity and the square reports infinity.
    In each case the nominal is defined and true, and the reported value
    is no finite number, so not the raw value up to any rounding. *)
Lemma out_of_range_nominal_does_not_cancel :
  let board := Chess.from_placement "4k3/8/8/8/8/8/8/R3K3" in
  let report s :=
    do tbl <- Binary64.parse_nominals s;
    do l <- Binary64.contrib_list Stub.Features Stub.board_to_features
              Stub.planes Stub.model64 board tbl true true;
    Ok (Binary64.nominal_map tbl Chess.ROOK, l !! 0%nat) in
  Chess.piece_at board 0 = Some (Chess.mkPiece Chess.ROOK true)
  /\ Binary64.contrib Stub.Features Stub.board_to_features Stub.planes Stub.model64
       board 0 = F64.Fin 4
  /\ report "R:1e400" = Ok (Some (F64.Inf false), Some F64.NaN)
  /\ report "R:inf" = Ok (Some (F64.Inf false), Some F64.NaN)
  /\ report "R:1e-320"
     = Ok (Some (F64.Fin (2024 * F64.pow2 (-1074))), Some (F64.Inf false))
  /\ (forall reported, reported = F64.NaN \/ reported = F64.Inf false ->
      ~ exists v, reported = F64.Fin v
                  /\ Qabs (v - 4) <= (2 * F64.u + F64.u * F64.u) * Qabs 4).
Proof.
  intros board report.
  split; [vm_compute; reflexivity|].
  split; [vm_compute; reflexivity|].
  split; [vm_compute; reflexivity|].
  split; [vm_compute; reflexivity|].
  split; [vm_compute; reflexivity|].
  intros reported [->| ->] (v & Hv & _); discriminate.
Qed.

(** ** The counterfactual loop *)

Lemma removed_spec (b : Chess.Board) (sq : nat) :
  (forall sq', Chess.piece_at (removed b sq) sq'
               = if decide (sq' = sq) then None else Chess.piece_at b sq')
  /\ Chess.turn (removed b sq) = Chess.turn b
  /\ Chess.castling_rights (removed b sq) = Chess.castling_rights b
  /\ Chess.ep_square (removed b sq) = Chess.ep_square b
  /\ Chess.halfmove_clock (removed b sq) = Chess.halfmove_clock b
  /\ Chess.fullmove_number (removed b sq) = Chess.fullmove_number b
  /\ Chess.move_stack (removed b sq) = [].
Proof.
  repeat split. intros sq'. unfold Chess.piece_at, removed. simpl.
  case_decide as Heq.
  - subst. apply lookup_delete_eq.
  - by apply lookup_delete_ne.
Qed.

Lemma omap_cons_match {A B : Type} (f : A -> option B) (x : A) (l : list A) :
  omap f (x :: l) = match f x with
                    | Some y => y :: omap f l
                    | None => omap f l
                    end.
Proof. reflexivity. Qed.

Lemma square_name_length (sq : nat) :
  (sq < 64)%nat -> String.length (Chess.square_name sq) = 2%nat.
Proof.
  intros Hsq.
  assert (H : forallb (fun sq => Nat.eqb (String.length (Chess.square_name sq)) 2)
                      (seq 0 64) = true) by (vm_compute; reflexivity).
  rewrite forallb_forall in H. apply Nat.eqb_eq, H, in_seq. lia.
Qed.

Lemma symbol_length (p : Chess.Piece) : String.length (Chess.symbol p) = 1%nat.
Proof. by destruct p as [[] []]. Qed.

Lemma delta_line_text (row : DeltaRow) :
  String.length (row_sqname row) = 2%nat ->
  String.length (row_symbol row) = 1%nat ->
  delta_line row
  = row_sqname row +:+ "  " +:+ row_symbol row +:+ ": "
      +:+ Fmt.format_f true 0 3 (delta row).
Proof.
  intros H2 H1. unfold delta_line, Fmt.rjust. rewrite H2, H1. simpl.
  reflexivity.
Qed.

Section CounterfactualFacts.
Variable Features : Type.
Variable board_to_features : Chess.Board -> Features.
Variable model : Features -> Q * (nat -> nat -> Q).

Lemma delta_loop_cons board ge sq_idx rest acc :
  delta_loop Features board_to_features model board ge (sq_idx :: rest) acc
  = (piece <~ board_piece_at board sq_idx ;;
     match piece with
     | None => delta_loop Features board_to_features model board ge rest acc
     | Some p =>
         if decide (Chess.piece_type p = Chess.KING)
         then delta_loop Features board_to_features model board ge rest acc
         else
           b2 <~ board_copy board ;;
           _ <~ board_remove_piece_at b2 sq_idx ;;
           g2 <~ evaluate Features board_to_features model b2 ;;
           delta_loop Features board_to_features model board ge rest
             (acc ++ [mkDeltaRow (ge - g2) (Chess.symbol p)
                        (Chess.square_name sq_idx) sq_idx])
     end).
Proof. reflexivity. Qed.

Local Abbreviation global_eval := (global_eval Features board_to_features model).
Local Abbreviation delta_loop := (delta_loop Features board_to_features model).
Local Abbreviation deltas := (deltas Features board_to_features model).
Local Abbreviation expected_row := (expected_row Features board_to_features model).

Lemma expected_row_inv b ge sq row :
  expected_row b ge sq = Some row ->
  exists p, Chess.piece_at b sq = Some p
            /\ Chess.piece_type p <> Chess.KING
            /\ row = mkDeltaRow
                       (ge - fst (model (board_to_features (removed b sq))))
                       (Chess.symbol p) (Chess.square_name sq) sq.
Proof.
  unfold expected_row. destruct (Chess.piece_at b sq) as [p|]; [|done].
  destruct (decide (Chess.piece_type p = Chess.KING)); [done|].
  intros [= <-]. by exists p.
Qed.

Lemma expected_row_none b ge sq :
  expected_row b ge sq = None -> counterfactual_square b sq = false.
Proof.
  unfold expected_row, counterfactual_square.
  destruct (Chess.piece_at b sq) as [p|]; [|done].
  destruct (decide (Chess.piece_type p = Chess.KING)); [|done].
  intros _. apply bool_decide_eq_false_2. tauto.
Qed.

Lemma expected_row_some b ge sq row :
  expected_row b ge sq = Some row ->
  counterfactual_square b sq = true /\ row_sq row = sq.
Proof.
  intros (p & Hp & Hk & ->)%expected_row_inv. split; [|done].
  unfold counterfactual_square. rewrite Hp. by apply bool_decide_eq_true_2.
Qed.

Lemma expected_rows_squares b ge squares :
  map row_sq (omap (expected_row b ge) squares)
  = filter (fun sq => counterfactual_square b sq = true) squares.
Proof.
  induction squares as [|sq squares IH]; [done|].
  rewrite filter_cons, omap_cons_match.
  destruct (expected_row b ge sq) as [row|] eqn:E.
  - apply expected_row_some in E as [Hcf Hsq].
    rewrite decide_True by done. simpl. by rewrite IH, Hsq.
  - apply expected_row_none in E. rewrite decide_False by congruence. apply IH.
Qed.

(** What the loop does from any world in which [r] refers to a board in
    state [b]: it returns the expected rows, leaves every object of the
    starting world as it was, and calls the evaluator once per
    counterfactual square, each time on a new object. *)
Lemma delta_loop_spec r b ge squares acc w :
  heap w !! r = Some b ->
  exists w' refs,
    delta_loop r ge squares acc w
      = Some (acc ++ omap (expected_row b ge) squares, w')
    /\ heap w ⊆ heap w'
    /\ evaluated w'
       = evaluated w
         ++ zip refs (map (removed b)
                        (filter (fun sq => counterfactual_square b sq = true) squares))
    /\ length refs
       = length (filter (fun sq => counterfactual_square b sq = true) squares)
    /\ NoDup refs
    /\ (forall ref, ref ∈ refs -> heap w !! ref = None).
Proof.
  revert acc w. induction squares as [|sq squares IH]; intros acc w Hr.
  - exists w, []. simpl. rewrite !app_nil_r.
    repeat split; [done|constructor|]. intros ref Href. by apply elem_of_nil in Href.
  - rewrite filter_cons, omap_cons_match.
    rewrite delta_loop_cons. unfold mbind at 1, board_piece_at at 1. rewrite Hr.
    destruct (expected_row b ge sq) as [row|] eqn:E.
    + pose proof E as (p & Hp & Hk & ->)%expected_row_inv.
      apply expected_row_some in E as [Hcf _].
      rewrite decide_True by done. rewrite Hp.
      destruct (decide (Chess.piece_type p = Chess.KING)) as [?|_]; [done|].
      unfold mbind at 1, board_copy at 1. rewrite Hr.
      set (ref' := fresh (dom (heap w))).
      assert (Hfresh : heap w !! ref' = None).
      { apply not_elem_of_dom. apply is_fresh. }
      unfold mbind at 1, board_remove_piece_at at 1. simpl.
      rewrite lookup_insert_eq. rewrite insert_insert_eq.
      unfold mbind at 1, evaluate at 1. simpl. rewrite lookup_insert_eq.
      fold (removed b sq).
      set (w3 := mkWorld (<[ref' := removed b sq]> (heap w))
                         (evaluated w ++ [(ref', removed b sq)])).
      assert (Hr3 : heap w3 !! r = Some b).
      { simpl. rewrite lookup_insert_ne; [done|]. intros ->. congruence. }
      destruct (IH (acc ++ [mkDeltaRow
                              (ge - fst (model (board_to_features (removed b sq))))
                              (Chess.symbol p) (Chess.square_name sq) sq]) w3 Hr3)
        as (w' & refs & Hrun & Hsub & Hlog & Hlen & Hnd & Hnew).
      exists w', (ref' :: refs).
      assert (Hsub3 : heap w ⊆ heap w3) by by apply insert_subseteq.
      split; [by rewrite Hrun, <- app_assoc|].
      split; [by etrans|].
      split; [by rewrite Hlog; simpl; rewrite <- app_assoc|].
      split; [by simpl; rewrite Hlen|].
      split.
      * constructor; [|done]. intros Hin. apply Hnew in Hin.
        simpl in Hin. by rewrite lookup_insert_eq in Hin.
      * intros ref [->|Hin]%elem_of_cons; [done|].
        apply Hnew in Hin. destruct (heap w !! ref) as [x|] eqn:Hx; [|done].
        apply (lookup_weaken _ _ _ _ Hx) in Hsub3. congruence.
    + pose proof (expected_row_none _ _ _ E) as Hcf.
      rewrite decide_False by congruence.
      assert (Hsame : (match Chess.piece_at b sq with
                       | Some p =>
                           if decide (Chess.piece_type p = Chess.KING)
                           then delta_loop r ge squares acc
                           else
                             b2 <~ board_copy r ;;
                             _ <~ board_remove_piece_at b2 sq ;;
                             g2 <~ evaluate Features board_to_features model b2 ;;
                             delta_loop r ge squares
                               (acc ++ [mkDeltaRow (ge - g2) (Chess.symbol p)
                                          (Chess.square_name sq) sq])
                       | None => delta_loop r ge squares acc
                       end) = delta_loop r ge squares acc).
      { unfold expected_row in E. destruct (Chess.piece_at b sq) as [p|]; [|done].
        by destruct (decide (Chess.piece_type p = Chess.KING)). }
      rewrite Hsame. by apply IH.
Qed.

Lemma deltas_requested with_delta grid_mode r b ge w :
  (with_delta || String.eqb grid_mode "delta")%bool = true ->
  heap w !! r = Some b ->
  exists w' refs,
    deltas with_delta grid_mode r ge w
      = Some (sort_desc delta (omap (expected_row b ge) Chess.SQUARES), w')
    /\ heap w ⊆ heap w'
    /\ evaluated w'
       = evaluated w
         ++ zip refs (map (removed b)
                        (filter (fun sq => counterfactual_square b sq = true)
                                Chess.SQUARES))
    /\ length refs
       = length (filter (fun sq => counterfactual_square b sq = true) Chess.SQUARES)
    /\ NoDup refs
    /\ (forall ref, ref ∈ refs -> heap w !! ref = None).
Proof.
  intros Hreq Hr. unfold deltas. rewrite Hreq.
  destruct (delta_loop_spec r b ge Chess.SQUARES [] w Hr)
    as (w' & refs & Hrun & Hrest).
  exists w', refs. split; [|done].
  unfold mbind. by rewrite Hrun.
Qed.

Lemma deltas_not_requested with_delta grid_mode r ge w :
  (with_delta || String.eqb grid_mode "delta")%bool = false ->
  deltas with_delta grid_mode r ge w = Some ([], w).
Proof. intros Hreq. unfold deltas. by rewrite Hreq. Qed.

Lemma desc_delta_transitive : Relations_1.Transitive (desc delta).
Proof. intros x y z Hxy Hyz. unfold desc in *. by apply (Qle_trans _ (delta y)). Qed.

Lemma counterfactual_square_spec b sq :
  counterfactual_square b sq = true
  <-> exists p, Chess.piece_at b sq = Some p /\ Chess.piece_type p <> Chess.KING.
Proof.
  unfold counterfactual_square. destruct (Chess.piece_at b sq) as [p|].
  - rewrite bool_decide_eq_true. split; [by exists p|]. by intros (? & [= <-] & ?).
  - split; [done|]. by intros (? & ? & ?).
Qed.

(** ** C7: one row per non-king piece *)

(** C7: for every position, when counterfactual analysis is requested
    (the with-delta flag or the delta grid mode), the block returns rows
    whose squares are, up to order, exactly the squares of
    [chess.SQUARES] occupied by a non-king piece, each once: every row
    belongs to a square that holds a non-king piece (with that piece's
    symbol and the square's name), no row belongs to a king-occupied or
    empty square, and for the standard starting position there are
    exactly 30 rows. *)
Theorem one_row_per_non_king_piece with_delta grid_mode r b ge w :
  (with_delta || String.eqb grid_mode "delta")%bool = true ->
  heap w !! r = Some b ->
  exists rows w',
    deltas with_delta grid_mode r ge w = Some (rows, w')
    /\ Permutation (map row_sq rows)
         (filter (fun sq => counterfactual_square b sq = true) Chess.SQUARES)
    /\ NoDup (map row_sq rows)
    /\ (forall row, row ∈ rows ->
          exists p, Chess.piece_at b (row_sq row) = Some p
                    /\ Chess.piece_type p <> Chess.KING
                    /\ row_symbol row = Chess.symbol p
                    /\ row_sqname row = Chess.square_name (row_sq row))
    /\ (forall sq, (sq < 64)%nat ->
          (sq ∈ map row_sq rows
           <-> exists p, Chess.piece_at b sq = Some p
                         /\ Chess.piece_type p <> Chess.KING))
    /\ (b = Chess.starting_board -> length rows = 30%nat).
Proof.
  intros Hreq Hr.
  destruct (deltas_requested with_delta grid_mode r b ge w Hreq Hr)
    as (w' & refs & Hrun & _).
  set (rows0 := omap (expected_row b ge) Chess.SQUARES) in *.
  exists (sort_desc delta rows0), w'. split; [done|].
  assert (Hperm : Permutation (map row_sq (sort_desc delta rows0))
                    (filter (fun sq => counterfactual_square b sq = true)
                            Chess.SQUARES)).
  { rewrite <- (expected_rows_squares b ge). apply Permutation_map.
    symmetry. apply sort_desc_perm. }
  split; [done|]. split; [|split; [|split]].
  - rewrite Hperm. apply NoDup_filter, NoDup_seq.
  - intros row Hin. rewrite <- (sort_desc_perm delta rows0) in Hin.
    apply list_elem_of_omap in Hin as (sq & _ & Hrow).
    apply expected_row_inv in Hrow as (p & Hp & Hk & ->). by exists p.
  - intros sq Hsq. rewrite Hperm, list_elem_of_filter, counterfactual_square_spec.
    split; [by intros [? _]|]. intros H. split; [done|].
    apply elem_of_seq. lia.
  - intros ->. rewrite <- (length_map row_sq), Hperm. by vm_compute.
Qed.

(** ** C8: the deltas and their printed order *)

(** C8: when the block runs with the global value of the original
    position, every counterfactual row belongs to a square that holds a
    non-king piece, carries that piece's symbol and the square's name,
    and its delta is that global value minus the global value of the
    modified position: the position in which that square is empty and
    every other square, the side to move, the castling rights, the
    en-passant square and the move counters are as in the original,
    with an empty move stack; the evaluator was called on that position
    in an object that did not exist before the block.  The rows are
    sorted by delta, largest first (every row's delta is at least that of
    every later row), and there is one row per square the loop works on.
    When delta output is requested the block prints its header and then
    one line per row, all rows, in that order, each line holding the
    square name, two spaces, the piece symbol, a colon and a space, and
    the delta with sign and three decimals; otherwise it prints
    nothing. *)
Theorem delta_is_score_drop_sorted_and_printed with_delta grid_mode r b w :
  (with_delta || String.eqb grid_mode "delta")%bool = true ->
  heap w !! r = Some b ->
  exists rows w',
    deltas with_delta grid_mode r (global_eval b) w = Some (rows, w')
    /\ (forall row, row ∈ rows ->
          exists p b2 ref,
            Chess.piece_at b (row_sq row) = Some p
            /\ Chess.piece_type p <> Chess.KING
            /\ row_symbol row = Chess.symbol p
            /\ row_sqname row = Chess.square_name (row_sq row)
            /\ (forall sq, Chess.piece_at b2 sq
                           = if decide (sq = row_sq row) then None
                             else Chess.piece_at b sq)
            /\ Chess.turn b2 = Chess.turn b
            /\ Chess.castling_rights b2 = Chess.castling_rights b
            /\ Chess.ep_square b2 = Chess.ep_square b
            /\ Chess.halfmove_clock b2 = Chess.halfmove_clock b
            /\ Chess.fullmove_number b2 = Chess.fullmove_number b
            /\ Chess.move_stack b2 = []
            /\ (ref, b2) ∈ evaluated w'
            /\ heap w !! ref = None
            /\ delta row = global_eval b - global_eval b2)
    /\ StronglySorted (fun x y => delta y <= delta x) rows
    /\ length rows
       = length (filter (fun sq => counterfactual_square b sq = true) Chess.SQUARES)
    /\ print_deltas with_delta rows
       = if with_delta
         then String (ascii_of_nat 10) "Counterfactual piece deltas (removing piece):"
                :: map (fun row =>
                          Chess.square_name (row_sq row) +:+ "  " +:+ row_symbol row
                            +:+ ": " +:+ Fmt.format_f true 0 3 (delta row))
                       rows
         else [].
Proof.
  intros Hreq Hr.
  destruct (deltas_requested with_delta grid_mode r b (global_eval b) w Hreq Hr)
    as (w' & refs & Hrun & _ & Hlog & Hlen & _ & Hnew).
  exists (sort_desc delta (omap (expected_row b (global_eval b)) Chess.SQUARES)), w'.
  split; [done|].
  assert (Hrows : forall row,
             row ∈ sort_desc delta (omap (expected_row b (global_eval b)) Chess.SQUARES) ->
             exists sq p, sq ∈ Chess.SQUARES
                          /\ counterfactual_square b sq = true
                          /\ Chess.piece_at b sq = Some p
                          /\ Chess.piece_type p <> Chess.KING
                          /\ row = mkDeltaRow (global_eval b - global_eval (removed b sq))
                                     (Chess.symbol p) (Chess.square_name sq) sq).
  { intros row Hin. rewrite <- sort_desc_perm in Hin.
    apply list_elem_of_omap in Hin as (sq & Hsq & Hrow).
    pose proof (expected_row_some _ _ _ _ Hrow) as [Hcf _].
    apply expected_row_inv in Hrow as (p & Hp & Hk & ->). by exists sq, p. }
  split; [|split; [|split]].
  - intros row (sq & p & Hsq & Hcf & Hp & Hk & ->)%Hrows. simpl.
    assert (Hin : sq ∈ filter (fun sq => counterfactual_square b sq = true) Chess.SQUARES)
      by by apply list_elem_of_filter.
    apply list_elem_of_lookup in Hin as [i Hi].
    destruct (lookup_lt_is_Some_2 refs i) as [ref Href].
    { rewrite Hlen. by eapply lookup_lt_Some. }
    destruct (removed_spec b sq) as (H1 & H2 & H3 & H4 & H5 & H6 & H7).
    exists p, (removed b sq), ref.
    repeat (split; [done|]). split; [|split; [|done]].
    + rewrite Hlog. apply elem_of_app. right.
      apply list_elem_of_lookup. exists i.
      apply lookup_zip_with_Some. exists ref, (removed b sq).
      split; [done|]. split; [done|]. by rewrite list_lookup_fmap, Hi.
    + apply Hnew. by eapply list_elem_of_lookup_2.
  - apply (Sorted_StronglySorted (desc_delta_transitive)), sort_desc_sorted.
  - rewrite sort_desc_length.
    by rewrite <- (expected_rows_squares b (global_eval b)), length_map.
  - unfold print_deltas. destruct with_delta; [|done]. f_equal.
    apply map_ext_in. intros row Hin%list_elem_of_In.
    apply Hrows in Hin as (sq & p & Hsq & Hcf & Hp & Hk & ->).
    rewrite delta_line_text; simpl; [done| |apply symbol_length].
    apply square_name_length. apply elem_of_seq in Hsq. lia.
Qed.

(** ** C9: the original position is never changed *)

(** C9: from any world in which the reference [r] holds a board in
    state [b], the counterfactual block returns, and afterwards [r]
    still holds [b] and every object of the starting world is as it
    was.  The evaluator is called once per counterfactual square, in
    square order, each time on an object that did not exist before the
    block (so never on the original) and that no other call receives;
    the state it sees is [b] with the piece of that square absent, every
    other square and field as in [b], and an empty move stack.  When
    the analysis is not requested, no call is made. *)
Theorem original_position_unchanged with_delta grid_mode r b ge w :
  heap w !! r = Some b ->
  exists rows w' refs,
    deltas with_delta grid_mode r ge w = Some (rows, w')
    /\ heap w' !! r = Some b
    /\ (forall r0 b0, heap w !! r0 = Some b0 -> heap w' !! r0 = Some b0)
    /\ evaluated w'
       = evaluated w
         ++ zip refs
              (map (removed b)
                 (if (with_delta || String.eqb grid_mode "delta")%bool
                  then filter (fun sq => counterfactual_square b sq = true)
                              Chess.SQUARES
                  else []))
    /\ length refs
       = length (if (with_delta || String.eqb grid_mode "delta")%bool
                 then filter (fun sq => counterfactual_square b sq = true)
                             Chess.SQUARES
                 else [])
    /\ NoDup refs
    /\ (forall ref, ref ∈ refs -> ref <> r /\ heap w !! ref = None)
    /\ (forall sq,
          (forall sq', Chess.piece_at (removed b sq) sq'
                       = if decide (sq' = sq) then None else Chess.piece_at b sq')
          /\ Chess.turn (removed b sq) = Chess.turn b
          /\ Chess.castling_rights (removed b sq) = Chess.castling_rights b
          /\ Chess.ep_square (removed b sq) = Chess.ep_square b
          /\ Chess.halfmove_clock (removed b sq) = Chess.halfmove_clock b
          /\ Chess.fullmove_number (removed b sq) = Chess.fullmove_number b
          /\ Chess.move_stack (removed b sq) = []).
Proof.
  intros Hr.
  destruct (with_delta || String.eqb grid_mode "delta")%bool eqn:Hreq.
  - destruct (deltas_requested with_delta grid_mode r b ge w Hreq Hr)
      as (w' & refs & Hrun & Hsub & Hlog & Hlen & Hnd & Hnew).
    eexists _, w', refs. split; [done|].
    split; [by apply (lookup_weaken _ _ _ _ Hr Hsub)|].
    split; [intros r0 b0 H0; by apply (lookup_weaken _ _ _ _ H0 Hsub)|].
    split; [done|]. split; [done|]. split; [done|].
    split; [|apply removed_spec].
    intros ref Hin. split; [|by apply Hnew]. intros ->.
    apply Hnew in Hin. congruence.
  - rewrite deltas_not_requested by done.
    exists [], w, []. simpl. rewrite app_nil_r.
    split; [done|]. split; [done|]. split; [done|]. split; [done|].
    split; [done|]. split; [constructor|]. split; [|apply removed_spec].
    intros ref Hin. by apply elem_of_nil in Hin.
Qed.

End CounterfactualFacts.

(** ** Concrete runs of the counterfactual block *)

Lemma one_row_per_non_king_piece_witness :
  let b := Chess.starting_board in
  let w := mkWorld {[ 0%nat := b ]} [] in
  (true || String.eqb "contrib" "delta")%bool = true
  /\ heap w !! 0%nat = Some b
  /\ exists rows w',
       deltas Stub.Features Stub.board_to_features Stub.model
         true "contrib" 0 32 w = Some (rows, w')
       /\ length rows = 30%nat
       /\ NoDup (map row_sq rows).
Proof.
  intros b w.
  assert (H1 : (true || String.eqb "contrib" "delta")%bool = true) by reflexivity.
  assert (H2 : heap w !! 0%nat = Some b) by (vm_compute; reflexivity).
  split; [exact H1|]. split; [exact H2|].
  destruct (one_row_per_non_king_piece Stub.Features Stub.board_to_features
              Stub.model true "contrib" 0%nat b 32 w H1 H2)
    as (rows & w' & Hrun & _ & Hnd & _ & _ & Hstart).
  exists rows, w'. split; [exact Hrun|]. split; [exact (Hstart eq_refl)|exact Hnd].
Defined.

Lemma delta_is_score_drop_sorted_and_printed_witness :
  let b := Chess.from_placement "4k3/7p/8/8/8/8/R7/N3K3" in
  let w := mkWorld {[ 0%nat := b ]} [] in
  (true || String.eqb "contrib" "delta")%bool = true
  /\ heap w !! 0%nat = Some b
  /\ exists rows w',
       deltas Stub.Features Stub.board_to_features Stub.material true "contrib" 0
         (global_eval Stub.Features Stub.board_to_features Stub.material b) w
       = Some (rows, w')
       /\ map row_sq rows = [8; 0; 55]%nat
       /\ map delta rows = [5; 3; -1]
       /\ StronglySorted (fun x y => delta y <= delta x) rows
       /\ print_deltas true rows
          = [String (ascii_of_nat 10) "Counterfactual piece deltas (removing piece):";
             "a2  R: +5.000"; "a1  N: +3.000"; "h7  p: -1.000"].
Proof.
  intros b w.
  assert (H1 : (true || String.eqb "contrib" "delta")%bool = true) by reflexivity.
  assert (H2 : heap w !! 0%nat = Some b) by (vm_compute; reflexivity).
  split; [exact H1|]. split; [exact H2|].
  destruct (delta_is_score_drop_sorted_and_printed Stub.Features
              Stub.board_to_features Stub.material true "contrib" 0%nat b w H1 H2)
    as (rows & w' & Hrun & _ & Hsorted & _ & Hprint).
  exists rows, w'. split; [exact Hrun|].
  vm_compute in Hrun. injection Hrun as <- _.
  split; [reflexivity|]. split; [reflexivity|]. split; [exact Hsorted|].
  vm_compute. reflexivity.
Defined.

Lemma original_position_unchanged_witness :
  let b := Chess.from_placement "4k3/8/8/8/8/8/P7/R3K3" in
  let w := mkWorld {[ 0%nat := b ]} [] in
  heap w !! 0%nat = Some b
  /\ exists rows w' refs,
       deltas Stub.Features Stub.board_to_features Stub.model true "contrib" 0 4 w
       = Some (rows, w')
       /\ heap w' !! 0%nat = Some b
       /\ evaluated w' = zip refs [removed b 0; removed b 8]
       /\ NoDup refs
       /\ (forall ref, ref ∈ refs -> ref <> 0%nat).
Proof.
  intros b w.
  assert (H : heap w !! 0%nat = Some b) by (vm_compute; reflexivity).
  split; [exact H|].
  destruct (original_position_unchanged Stub.Features Stub.board_to_features
              Stub.model true "contrib" 0%nat b 4 w H)
    as (rows & w' & refs & Hrun & Hr & _ & Hlog & _ & Hnd & Hnew & _).
  exists rows, w', refs. split; [exact Hrun|]. split; [exact Hr|].
  split; [exact Hlog|]. split; [exact Hnd|].
  intros ref Hin. exact (proj1 (Hnew ref Hin)).
Defined.

Example printed_deltas :
  option_map (fun x => print_deltas true (fst x))
    (run_deltas Stub.Features Stub.board_to_features Stub.model true "contrib"
       (Chess.from_placement "4k3/8/8/8/8/8/P7/R3K3"))
  = Some [String (ascii_of_nat 10) "Counterfactual piece deltas (removing piece):";
          "a1  R: +1.000"; "a2  P: +1.000"].
Proof. vm_compute. reflexivity. Qed.

Example starting_position_rows :
  option_map (fun x => (length (fst x), length (evaluated (snd x))))
    (run_deltas Stub.Features Stub.board_to_features Stub.model false "delta"
       Chess.starting_board)
  = Some (30%nat, 30%nat).
Proof. vm_compute. reflexivity. Qed.

Example starting_position_attribution :
  (do l <- contrib_list Stub.Features Stub.board_to_features Stub.planes Stub.model
             Chess.starting_board default_nom false false;
   Ok (length l, length (filter (fun v => Qeq_bool v 0 = true) l)))
  = Ok (64%nat, 32%nat).
Proof. vm_compute. reflexivity. Qed.

(** * Further properties of the script *)

(** ** [format_matrix] on lists of any length *)

Lemma ofold_snoc_raise {A B : Type} (f : A -> outcome B) (e : exn)
    (l : list A) (acc : list B) :
  (forall x, x ∈ l -> f x = Raise e \/ exists v, f x = Ok v) ->
  (exists x, x ∈ l /\ f x = Raise e) ->
  ofold (fun acc x => do v <- f x; Ok (acc ++ [v])) l acc = Raise e.
Proof.
  revert acc. induction l as [|x l IH]; intros acc Hall (y & Hy & Hraise).
  - by apply elem_of_nil in Hy.
  - simpl. destruct (Hall x) as [Hx|[v Hx]]; [by left|by rewrite Hx|].
    rewrite Hx. simpl. apply IH.
    + intros z Hz. apply Hall. by right.
    + apply elem_of_cons in Hy as [->|Hy]; [congruence|by exists y].
Qed.

Lemma format_cell_cases (l : list Q) (r f : nat) :
  format_cell l r f
  = if decide (r * 8 + f < length l)%nat
    then Ok (Fmt.format_f false 6 3 (nth (Chess.square f r) l 0))
    else Raise IndexError.
Proof.
  unfold format_cell, Chess.square. case_decide as Hlt.
  - by rewrite py_index_nth.
  - unfold py_index. rewrite lookup_ge_None_2 by lia. done.
Qed.

Lemma format_matrix_grid_ge (l : list Q) :
  (64 <= length l)%nat ->
  format_matrix l
  = Ok (Fmt.join (String (ascii_of_nat 10) "")
          (map (fun r => Fmt.join " "
                           (map (fun f => Fmt.format_f false 6 3
                                            (nth (Chess.square f r) l 0))
                                (seq 0 8)))
               ranks_down)).
Proof.
  intros Hl. unfold format_matrix.
  rewrite (ofold_snoc_map (format_row l)
             (fun r => Fmt.join " "
                         (map (fun f => Fmt.format_f false 6 3
                                          (nth (Chess.square f r) l 0))
                              (seq 0 8)))); [done|].
  intros r Hr.
  assert (Hr8 : (r < 8)%nat).
  { unfold ranks_down in Hr.
    repeat (apply elem_of_cons in Hr as [->|Hr]; [lia|]).
    by apply elem_of_nil in Hr. }
  unfold format_row.
  rewrite (ofold_snoc_map (format_cell l r)
             (fun f => Fmt.format_f false 6 3 (nth (Chess.square f r) l 0))); [done|].
  intros f Hf%elem_of_seq. rewrite format_cell_cases.
  rewrite decide_True by lia. done.
Qed.

(** X1: [format_matrix] needs 64 entries: on a shorter list it raises
    [IndexError] (already in the first row it formats, rank 8), and
    on a longer list it formats the first 64 entries and ignores the
    rest. *)
Theorem format_matrix_needs_64 (l : list Q) :
  ((length l < 64)%nat -> format_matrix l = Raise IndexError)
  /\ ((64 <= length l)%nat ->
      (exists grid, format_matrix l = Ok grid)
      /\ format_matrix l = format_matrix (take 64 l)).
Proof.
  split.
  - intros Hshort. unfold format_matrix, ranks_down.
    cbn [ofold]. replace (format_row l 7) with (@Raise string IndexError); [done|].
    symmetry. unfold format_row.
    rewrite (ofold_snoc_raise (format_cell l 7) IndexError); [done| |].
    + intros f _. rewrite format_cell_cases. case_decide; eauto.
    + exists 7%nat. split; [apply elem_of_seq; lia|].
      rewrite format_cell_cases. rewrite decide_False by lia. done.
  - intros Hlong. split; [rewrite format_matrix_grid_ge by done; eauto|].
    rewrite !format_matrix_grid_ge by (rewrite ?length_take; lia).
    do 2 f_equal. apply map_ext_in. intros r Hr%list_elem_of_In.
    assert (Hr8 : (r < 8)%nat).
    { unfold ranks_down in Hr.
      repeat (apply elem_of_cons in Hr as [->|Hr]; [lia|]).
      by apply elem_of_nil in Hr. }
    f_equal. apply map_ext_in. intros f Hf%list_elem_of_In%elem_of_seq.
    f_equal. rewrite !nth_lookup. rewrite lookup_take_lt; [done|].
    unfold Chess.square. lia.
Qed.

Lemma format_matrix_needs_64_witness :
  format_matrix (replicate 63 1) = Raise IndexError
  /\ (exists grid, format_matrix (replicate 65 1) = Ok grid)
  /\ format_matrix (replicate 65 1) = format_matrix (take 64 (replicate 65 1)).
Proof.
  split.
  - apply (proj1 (format_matrix_needs_64 (replicate 63 1))). vm_compute. lia.
  - apply (proj2 (format_matrix_needs_64 (replicate 65 1))). vm_compute. lia.
Defined.

(** ** The ranked list of occupied squares *)

Lemma scored_loop (b : Chess.Board) (cl : list Q) (squares : list nat)
    (acc : list (Q * string * string)) :
  (forall sq, sq ∈ squares -> (sq < length cl)%nat) ->
  ofold (fun acc sq =>
           match Chess.piece_at b sq with
           | Some piece =>
               do v <- py_index cl sq;
               Ok (acc ++ [(v, Chess.symbol piece, Chess.square_name sq)])
           | None => Ok acc
           end) squares acc
  = Ok (acc ++ omap (scored_entry b cl) squares).
Proof.
  revert acc. induction squares as [|sq squares IH]; intros acc Hlt.
  - simpl. by rewrite app_nil_r.
  - rewrite omap_cons_match. cbn [ofold]. unfold scored_entry at 1.
    destruct (Chess.piece_at b sq) as [piece|].
    + rewrite py_index_nth by (apply Hlt; by left). simpl.
      rewrite IH by (intros ? ?; apply Hlt; by right).
      by rewrite <- app_assoc.
    + simpl. apply IH. intros ? ?. apply Hlt. by right.
Qed.

Lemma scored_val_transitive :
  Relations_1.Transitive (desc (fun x : Q * string * string => fst (fst x))).
Proof.
  intros x y z Hxy Hyz. unfold desc in *. by apply (Qle_trans _ (fst (fst y))).
Qed.

Lemma scored_ok (b : Chess.Board) (cl : list Q) :
  length cl = 64%nat ->
  scored b cl
  = Ok (sort_desc (fun x => fst (fst x)) (omap (scored_entry b cl) Chess.SQUARES)).
Proof.
  intros Hlen. unfold scored.
  rewrite (scored_loop b cl Chess.SQUARES []); [done|].
  intros sq Hsq. unfold Chess.SQUARES in Hsq. apply elem_of_seq in Hsq.
  rewrite Hlen. lia.
Qed.

Lemma scored_entries_length (b : Chess.Board) (cl : list Q) (squares : list nat) :
  length (omap (scored_entry b cl) squares)
  = length (filter (fun sq => is_Some (Chess.piece_at b sq)) squares).
Proof.
  induction squares as [|sq squares IH]; [done|].
  rewrite omap_cons_match, filter_cons. unfold scored_entry at 1.
  destruct (Chess.piece_at b sq) as [piece|].
  - rewrite decide_True by eauto. simpl. by rewrite IH.
  - rewrite decide_False by (intros [? ?]; done). apply IH.
Qed.

Lemma scored_total (b : Chess.Board) (cl : list Q) :
  length cl = 64%nat ->
  exists sc, scored b cl = Ok sc
    /\ length sc
       = length (filter (fun sq => is_Some (Chess.piece_at b sq)) Chess.SQUARES).
Proof.
  intros Hlen. rewrite (scored_ok b cl Hlen). eexists. split; [reflexivity|].
  rewrite sort_desc_length. apply scored_entries_length.
Qed.

(** X2: on a 64-entry list [scored] never raises; it holds exactly one entry
    for every occupied square of [chess.SQUARES], with the square's value,
    the piece's symbol and the square's name, and no entry for an empty
    square; the entries are ordered by value, largest first. *)
Theorem scored_ranks_occupied_squares (b : Chess.Board) (cl : list Q) :
  length cl = 64%nat ->
  exists sc,
    scored b cl = Ok sc
    /\ Permutation sc (omap (scored_entry b cl) Chess.SQUARES)
    /\ StronglySorted (fun x y => scored_val y <= scored_val x) sc
    /\ length sc
       = length (filter (fun sq => is_Some (Chess.piece_at b sq)) Chess.SQUARES).
Proof.
  intros Hlen. rewrite (scored_ok b cl Hlen). eexists. split; [reflexivity|].
  split; [symmetry; apply sort_desc_perm|]. split.
  - apply (Sorted_StronglySorted scored_val_transitive), sort_desc_sorted.
  - rewrite sort_desc_length. apply scored_entries_length.
Qed.

Lemma scored_ranks_occupied_squares_witness :
  let b := Chess.from_placement "4k3/8/8/8/8/8/P7/R3K3" in
  let cl := replicate 64 1 in
  length cl = 64%nat
  /\ exists sc, scored b cl = Ok sc /\ length sc = 4%nat.
Proof.
  intros b cl. split; [reflexivity|].
  destruct (scored_ranks_occupied_squares b cl eq_refl) as (sc & Hsc & _ & _ & Hlen).
  exists sc. split; [exact Hsc|]. rewrite Hlen. vm_compute. reflexivity.
Defined.

(** ** Top 5 and bottom 5 *)

Lemma first5_length {A : Type} (l : list A) :
  length (first5 l) = Nat.min 5 (length l).
Proof. unfold first5. rewrite length_take. lia. Qed.

Lemma last5_length {A : Type} (l : list A) :
  length (last5 l) = Nat.min 5 (length l).
Proof. unfold last5. rewrite length_drop. lia. Qed.

(** X3: the slices [l[:5]] and [l[-5:]] of lines 106 and 109 each hold
    [min 5 (len l)] entries.  With at most 5 entries both are the whole
    list; with [n] entries, [5 <= n <= 10], the last [10 - n] entries of the
    top list are the first [10 - n] of the bottom list; from 10 entries on
    the two lists do not overlap: the list is the top 5, then the entries
    in between, then the bottom 5. *)
Theorem top_and_bottom_overlap {A : Type} (l : list A) :
  length (first5 l) = Nat.min 5 (length l)
  /\ length (last5 l) = Nat.min 5 (length l)
  /\ ((length l <= 5)%nat -> first5 l = l /\ last5 l = l)
  /\ ((5 <= length l <= 10)%nat ->
      drop (length l - 5) (first5 l) = take (10 - length l) (last5 l))
  /\ ((10 <= length l)%nat ->
      l = first5 l ++ drop 5 (take (length l - 5) l) ++ last5 l).
Proof.
  split; [apply first5_length|]. split; [apply last5_length|].
  unfold first5, last5. split; [|split].
  - intros Hn. split; [by apply take_ge|].
    replace (length l - 5)%nat with 0%nat by lia. done.
  - intros [Hlo Hhi]. rewrite take_drop_commute.
    do 2 f_equal. lia.
  - intros Hn.
    assert (H1 : take (length l - 5) l
                 = take 5 l ++ drop 5 (take (length l - 5) l)).
    { rewrite <- (take_drop 5 (take (length l - 5) l)) at 1.
      rewrite take_take. do 2 f_equal. lia. }
    transitivity (take (length l - 5) l ++ drop (length l - 5) l);
      [by rewrite take_drop|].
    rewrite H1 at 1. by rewrite <- app_assoc.
Qed.

Lemma top_and_bottom_overlap_witness :
  let l := [7; 6; 5; 4; 3; 2; 1]%nat in
  (5 <= length l <= 10)%nat
  /\ drop (length l - 5) (first5 l) = take (10 - length l) (last5 l)
  /\ first5 l = [7; 6; 5; 4; 3]%nat
  /\ last5 l = [5; 4; 3; 2; 1]%nat.
Proof.
  intros l.
  assert (H : (5 <= length l <= 10)%nat) by (vm_compute; lia).
  split; [exact H|]. split; [|split; reflexivity].
  exact (proj1 (proj2 (proj2 (proj2 (top_and_bottom_overlap l)))) H).
Defined.

(** ** Ties keep their order *)

Section Stable.
Context {A : Type} (key : A -> Q).

Lemma insert_desc_class (d : Q) (x : A) (l : list A) :
  filter (fun y => Qeq_bool (key y) d = true) (insert_desc key x l)
  = filter (fun y => Qeq_bool (key y) d = true) (x :: l).
Proof.
  induction l as [|y l IH]; [done|].
  simpl. destruct (Qle_bool (key y) (key x)) eqn:Hle; [done|].
  assert (Hlt : key x < key y).
  { apply Qnot_le_lt. intros H%Qle_bool_iff. congruence. }
  rewrite (filter_cons _ y), IH, !filter_cons.
  destruct (decide (Qeq_bool (key x) d = true)) as [Hx|Hx]; [|done].
  destruct (decide (Qeq_bool (key y) d = true)) as [Hy|Hy]; [|done].
  apply Qeq_bool_iff in Hx, Hy.
  rewrite Hx, Hy in Hlt. by apply Qlt_irrefl in Hlt.
Qed.

Lemma sort_desc_stable (d : Q) (l : list A) :
  filter (fun y => Qeq_bool (key y) d = true) (sort_desc key l)
  = filter (fun y => Qeq_bool (key y) d = true) l.
Proof.
  induction l as [|x l IH]; [done|].
  simpl. rewrite insert_desc_class, !filter_cons, IH. done.
Qed.
End Stable.

Lemma seq_increasing (j n : nat) : StronglySorted lt (seq j n).
Proof.
  revert j. induction n as [|n IH]; intros j; [constructor|].
  simpl. constructor; [apply IH|].
  apply Forall_forall. intros k Hk%elem_of_seq. lia.
Qed.

Section TieOrder.
Variable Features : Type.
Variable board_to_features : Chess.Board -> Features.
Variable model : Features -> Q * (nat -> nat -> Q).

Lemma expected_rows_increasing b ge (P : DeltaRow -> Prop)
    `{forall row, Decision (P row)} (squares : list nat) :
  StronglySorted lt squares ->
  StronglySorted lt
    (map row_sq
       (filter P (omap (expected_row Features board_to_features model b ge) squares)))
  /\ (forall sq, sq ∈ map row_sq
                   (filter P (omap (expected_row Features board_to_features model
                                      b ge) squares)) ->
                 sq ∈ squares).
Proof.
  induction 1 as [|sq squares Hs [IH1 IH2] Hall]; [split; [constructor|done]|].
  rewrite omap_cons_match.
  destruct (expected_row Features board_to_features model b ge sq) as [row|] eqn:E.
  - apply expected_row_some in E as [_ Hsq]. rewrite filter_cons.
    destruct (decide (P row)).
    + simpl. rewrite Hsq. split.
      * constructor; [done|]. apply Forall_forall. intros y Hy.
        apply IH2 in Hy. rewrite Forall_forall in Hall.
        by apply Hall.
      * intros y [->|Hy]%elem_of_cons; [by left|]. right. by apply IH2.
    + split; [done|]. intros y Hy. right. by apply IH2.
  - split; [done|]. intros y Hy. right. by apply IH2.
Qed.

(** X4: the sort of line 125 is stable: when the counterfactual block runs,
    the rows that share a delta stand in the order of their squares
    (increasing index of [chess.SQUARES]), for every delta value. *)
Theorem equal_deltas_in_square_order with_delta grid_mode r b ge w (d : Q) :
  (with_delta || String.eqb grid_mode "delta")%bool = true ->
  heap w !! r = Some b ->
  exists rows w',
    deltas Features board_to_features model with_delta grid_mode r ge w
      = Some (rows, w')
    /\ StronglySorted lt
         (map row_sq (filter (fun row => Qeq_bool (delta row) d = true) rows)).
Proof.
  intros Hreq Hr.
  destruct (deltas_requested Features board_to_features model
              with_delta grid_mode r b ge w Hreq Hr) as (w' & refs & Hrun & _).
  eexists _, w'. split; [exact Hrun|].
  rewrite sort_desc_stable.
  apply expected_rows_increasing.
  apply seq_increasing.
Qed.
End TieOrder.

(** ** Printing and raising *)

Lemma pbind_lift_ok {A B} (a : A) (k : A -> Prog B) : pbind (lift (Ok a)) k = k a.
Proof. unfold pbind, lift. by destruct (k a). Qed.

Lemma pbind_lift_raise {A B} (e : exn) (k : A -> Prog B) :
  pbind (lift (Raise e)) k = ([], Raise e).
Proof. done. Qed.

Lemma pbind_lift_unmodelled {A B} (k : A -> Prog B) :
  pbind (lift Unmodelled) k = ([], Unmodelled).
Proof. done. Qed.

Lemma pbind_print {B} (s : string) (k : unit -> Prog B) :
  pbind (print s) k = (s :: fst (k tt), snd (k tt)).
Proof. unfold pbind, print. by destruct (k tt). Qed.

Lemma pbind_ok {A B} (out : list string) (a : A) (k : A -> Prog B) :
  pbind (out, Ok a) k = (out ++ fst (k a), snd (k a)).
Proof. unfold pbind. by destruct (k a). Qed.

Lemma pfor_prints {A} (l : list A) (body : A -> Prog unit) (out : A -> list string) :
  (forall x, x ∈ l -> body x = (out x, Ok tt)) ->
  pfor l body = (concat (map out l), Ok tt).
Proof.
  induction l as [|x l IH]; intros Hbody; [done|].
  cbn [pfor]. rewrite (Hbody x) by left. rewrite pbind_ok.
  rewrite IH by (intros ? ?; apply Hbody; by right). done.
Qed.

Lemma pfor_print (l : list string) : pfor l print = (l, Ok tt).
Proof.
  rewrite (pfor_prints l print (fun s => [s])); [|done].
  f_equal. induction l as [|s l IH]; [done|]. simpl. by rewrite IH.
Qed.

Lemma ofold_cells {A : Type} (f : A -> outcome (string * string))
    (g : A -> string * string) (l : list A) (a1 a2 : list string) :
  (forall x, x ∈ l -> f x = Ok (g x)) ->
  ofold (fun cells x => do c <- f x; Ok (fst cells ++ [fst c], snd cells ++ [snd c]))
        l (a1, a2)
  = Ok (a1 ++ map (fun x => fst (g x)) l, a2 ++ map (fun x => snd (g x)) l).
Proof.
  revert a1 a2. induction l as [|x l IH]; intros a1 a2 Hf.
  - simpl. by rewrite !app_nil_r.
  - cbn [ofold]. rewrite (Hf x) by left. cbn [obind fst snd].
    rewrite IH by (intros ? ?; apply Hf; by right).
    cbn [map]. by rewrite <- !app_assoc.
Qed.

(** ** The fancy grid *)

Lemma fancy_cell_ok b cl dm gm idx :
  (String.eqb gm "delta" = true \/ (idx < length cl)%nat) ->
  fancy_cell b cl dm gm idx = Ok (fancy_cell_text b cl dm gm idx).
Proof.
  intros Hok. unfold fancy_cell, fancy_cell_text.
  destruct (Chess.piece_at b idx) as [piece|]; [|done].
  destruct (String.eqb gm "delta"); [done|].
  destruct Hok as [?|Hlt]; [done|]. by rewrite py_index_nth.
Qed.

Lemma fancy_grid_lines b cl ds gm :
  (String.eqb gm "delta" = true \/ (64 <= length cl)%nat) ->
  fancy_grid b cl ds gm
  = (String (ascii_of_nat 10) "Fancy grid (piece on first line, value on second):"
       :: sep
       :: concat
            (map (fun r =>
                    [bar_line (map (fun f => fst (fancy_cell_text b cl (delta_map ds) gm
                                                    (Chess.square f r)))
                                   (seq 0 8));
                     bar_line (map (fun f => snd (fancy_cell_text b cl (delta_map ds) gm
                                                    (Chess.square f r)))
                                   (seq 0 8));
                     sep])
                 ranks_down),
     Ok tt).
Proof.
  intros Hok. unfold fancy_grid. rewrite !pbind_print.
  rewrite (pfor_prints ranks_down _
             (fun r =>
                [bar_line (map (fun f => fst (fancy_cell_text b cl (delta_map ds) gm
                                                (Chess.square f r)))
                               (seq 0 8));
                 bar_line (map (fun f => snd (fancy_cell_text b cl (delta_map ds) gm
                                                (Chess.square f r)))
                               (seq 0 8));
                 sep])); [done|].
  intros r Hr.
  assert (Hr8 : (r < 8)%nat).
  { unfold ranks_down in Hr.
    repeat (apply elem_of_cons in Hr as [->|Hr]; [lia|]).
    by apply elem_of_nil in Hr. }
  unfold fancy_cells.
  rewrite (ofold_cells _ (fun f => fancy_cell_text b cl (delta_map ds) gm
                                     (Chess.square f r))).
  - rewrite pbind_lift_ok, !pbind_print. done.
  - intros f Hf%elem_of_seq. apply fancy_cell_ok.
    destruct Hok as [?|Hlen]; [by left|right; unfold Chess.square; lia].
Qed.

(** X5: the fancy grid never raises in delta mode, nor in contrib mode on a
    list of at least 64 entries.  It prints its heading and a separator,
    then for each rank from rank 8 down to rank 1 a line of piece symbols,
    a line of values and a separator; in each line the cells run from file
    a to file h, an empty square is blank in both lines, and the value of
    an occupied square is its delta in delta mode (0 when the square has no
    delta row) and its entry of the attribution list otherwise. *)
Theorem fancy_grid_layout b cl ds gm :
  (String.eqb gm "delta" = true \/ (64 <= length cl)%nat) ->
  fancy_grid b cl ds gm
  = (String (ascii_of_nat 10) "Fancy grid (piece on first line, value on second):"
       :: sep
       :: concat
            (map (fun r =>
                    [bar_line (map (fun f => fst (fancy_cell_text b cl (delta_map ds) gm
                                                    (Chess.square f r)))
                                   [0; 1; 2; 3; 4; 5; 6; 7]%nat);
                     bar_line (map (fun f => snd (fancy_cell_text b cl (delta_map ds) gm
                                                    (Chess.square f r)))
                                   [0; 1; 2; 3; 4; 5; 6; 7]%nat);
                     sep])
                 [7; 6; 5; 4; 3; 2; 1; 0]%nat),
     Ok tt).
Proof.
  intros Hok. rewrite (fancy_grid_lines b cl ds gm Hok). reflexivity.
Qed.

(** ** The deltas shown by the fancy grid *)

Lemma delta_map_fold_notin (rows : list DeltaRow) (m : gmap nat Q) (sq : nat) :
  sq ∉ map row_sq rows ->
  fold_left (fun m row => <[row_sq row := delta row]> m) rows m !! sq = m !! sq.
Proof.
  revert m. induction rows as [|row rows IH]; intros m Hnot; [done|].
  simpl in *. apply not_elem_of_cons in Hnot as [Hne Hnot].
  rewrite IH by done. by rewrite lookup_insert_ne.
Qed.

Lemma delta_map_fold_in (rows : list DeltaRow) (m : gmap nat Q) (row : DeltaRow) :
  NoDup (map row_sq rows) -> row ∈ rows ->
  fold_left (fun m row => <[row_sq row := delta row]> m) rows m !! row_sq row
  = Some (delta row).
Proof.
  revert m. induction rows as [|row0 rows IH]; intros m Hnd Hin.
  - by apply elem_of_nil in Hin.
  - simpl in *. apply NoDup_cons in Hnd as [Hnot Hnd].
    apply elem_of_cons in Hin as [->|Hin].
    + rewrite delta_map_fold_notin by done. by rewrite lookup_insert_eq.
    + by apply IH.
Qed.

Section FancyDeltas.
Variable Features : Type.
Variable board_to_features : Chess.Board -> Features.
Variable model : Features -> Q * (nat -> nat -> Q).

Local Abbreviation global_eval := (global_eval Features board_to_features model).
Local Abbreviation deltas := (deltas Features board_to_features model).
Local Abbreviation expected_row := (expected_row Features board_to_features model).

Lemma sorted_rows_squares b ge :
  Permutation
    (map row_sq (sort_desc delta (omap (expected_row b ge) Chess.SQUARES)))
    (filter (fun sq => counterfactual_square b sq = true) Chess.SQUARES).
Proof.
  rewrite <- (expected_rows_squares Features board_to_features model b ge).
  apply Permutation_map. symmetry. apply sort_desc_perm.
Qed.

Lemma delta_map_sorted_rows b ge sq :
  (sq < 64)%nat ->
  delta_map (sort_desc delta (omap (expected_row b ge) Chess.SQUARES)) !! sq
  = if counterfactual_square b sq
    then Some (ge - global_eval (removed b sq))
    else None.
Proof.
  intros Hlt. unfold delta_map.
  pose proof (sorted_rows_squares b ge) as Hsq.
  destruct (counterfactual_square b sq) eqn:Hcf.
  - destruct (expected_row b ge sq) as [row|] eqn:E.
    2:{ apply expected_row_none in E. congruence. }
    assert (Hin : row ∈ sort_desc delta (omap (expected_row b ge) Chess.SQUARES)).
    { rewrite <- sort_desc_perm. apply list_elem_of_omap. exists sq.
      split; [|done]. apply SQUARES_lookup in Hlt.
      by apply list_elem_of_lookup_2 in Hlt. }
    apply expected_row_inv in E as (p & _ & _ & Hrow).
    assert (Hnd : NoDup (map row_sq
                           (sort_desc delta (omap (expected_row b ge) Chess.SQUARES)))).
    { rewrite Hsq. apply NoDup_filter, NoDup_seq. }
    pose proof (delta_map_fold_in _ ∅ row Hnd Hin) as Hl.
    rewrite Hrow in Hl. cbn [row_sq delta] in Hl. exact Hl.
  - rewrite delta_map_fold_notin; [done|].
    rewrite Hsq, list_elem_of_filter. intros [? _]. congruence.
Qed.

(** X6: in the delta grid mode (with or without the with-delta flag) the
    block computes the rows, and the dictionary built from them at line
    136 holds, for every square of the board, the delta of the square
    when a non-king piece stands on it and no entry otherwise; so the
    fancy grid shows the delta for such a piece, 0.00 for a king, and
    blank cells for an empty square. *)
Theorem delta_mode_shows_zero_for_kings with_delta r b w :
  heap w !! r = Some b ->
  exists rows w',
    deltas with_delta "delta" r (global_eval b) w = Some (rows, w')
    /\ (forall sq, (sq < 64)%nat ->
          delta_map rows !! sq
          = if counterfactual_square b sq
            then Some (global_eval b - global_eval (removed b sq))
            else None)
    /\ (forall cl sq piece, (sq < 64)%nat ->
          Chess.piece_at b sq = Some piece ->
          fancy_cell b cl (delta_map rows) "delta" sq
          = Ok (center cell_w (Chess.symbol piece),
                center cell_w
                  (Fmt.format_f false 0 2
                     (if decide (Chess.piece_type piece = Chess.KING) then 0
                      else global_eval b - global_eval (removed b sq)))))
    /\ (forall cl sq, Chess.piece_at b sq = None ->
          fancy_cell b cl (delta_map rows) "delta" sq
          = Ok (Fmt.spaces cell_w, Fmt.spaces cell_w)).
Proof.
  intros Hr.
  assert (Hreq : (with_delta || String.eqb "delta" "delta")%bool = true)
    by by rewrite orb_true_r.
  destruct (deltas_requested Features board_to_features model
              with_delta "delta" r b (global_eval b) w Hreq Hr)
    as (w' & refs & Hrun & _).
  eexists _, w'. split; [exact Hrun|].
  split; [intros sq Hlt; by apply delta_map_sorted_rows|]. split.
  - intros cl sq piece Hlt Hp. unfold fancy_cell. rewrite Hp.
    cbn [String.eqb Ascii.eqb Bool.eqb obind].
    rewrite (delta_map_sorted_rows b (global_eval b) sq Hlt).
    unfold counterfactual_square. rewrite Hp.
    destruct (decide (Chess.piece_type piece = Chess.KING)) as [Hk|Hk].
    + by rewrite bool_decide_eq_false_2 by tauto.
    + by rewrite bool_decide_eq_true_2.
  - intros cl sq Hnone. unfold fancy_cell. by rewrite Hnone.
Qed.

End FancyDeltas.

Lemma delta_mode_shows_zero_for_kings_witness :
  let b := Chess.from_placement "4k3/8/8/8/8/8/P7/R3K3" in
  let w := mkWorld {[ 0%nat := b ]} [] in
  heap w !! 0%nat = Some b
  /\ exists rows w',
       deltas Stub.Features Stub.board_to_features Stub.model false "delta" 0
         (global_eval Stub.Features Stub.board_to_features Stub.model b) w
       = Some (rows, w')
       /\ delta_map rows !! 4%nat = None
       /\ delta_map rows !! 8%nat = Some 1
       /\ fancy_cell b [] (delta_map rows) "delta" 4 = Ok ("     K     ", "   0.00    ").
Proof.
  intros b w.
  assert (H : heap w !! 0%nat = Some b) by (vm_compute; reflexivity).
  split; [exact H|].
  destruct (delta_mode_shows_zero_for_kings Stub.Features Stub.board_to_features
              Stub.model false 0%nat b w H) as (rows & w' & Hrun & Hmap & Hcell & _).
  exists rows, w'. split; [exact Hrun|].
  split; [exact (Hmap 4%nat ltac:(lia))|].
  split; [exact (Hmap 8%nat ltac:(lia))|].
  exact (Hcell [] 4%nat (Chess.mkPiece Chess.KING true) ltac:(lia)
           ltac:(vm_compute; reflexivity)).
Defined.

(** ** A run of [main] *)

Lemma prints_bind_lift {A B} (o : outcome A) (a : A) (k : A -> Prog B)
    (lines : list string) (r : outcome B) :
  o = Ok a -> k a = (lines, r) -> pbind (lift o) k = (lines, r).
Proof. intros -> Hk. by rewrite pbind_lift_ok. Qed.

Lemma prints_bind_print {B} (s : string) (k : unit -> Prog B)
    (lines : list string) (r : outcome B) :
  k tt = (lines, r) -> pbind (print s) k = (s :: lines, r).
Proof. intros Hk. by rewrite pbind_print, Hk. Qed.

Lemma prints_bind {B} (m : Prog unit) (k : unit -> Prog B)
    (l1 l2 : list string) (r : outcome B) :
  m = (l1, Ok tt) -> k tt = (l2, r) -> pbind m k = (l1 ++ l2, r).
Proof. intros -> Hk. by rewrite pbind_ok, Hk. Qed.

Lemma pfor_print_lines {A} (l : list A) (line : A -> string) :
  pfor l (fun x => print (line x)) = (map line l, Ok tt).
Proof.
  rewrite (pfor_prints l _ (fun x => [line x])); [|done].
  f_equal. induction l as [|x l IH]; [done|]. simpl. by rewrite IH.
Qed.

Section MainFacts.
Variable Features : Type.
Variable board_to_features : Chess.Board -> Features.
Variable planes : Features -> nat -> nat -> Q.
Variable model : Features -> Q * (nat -> nat -> Q).

Local Abbreviation main := (main Features board_to_features planes model).
Local Abbreviation deltas := (deltas Features board_to_features model).

Lemma deltas_of_main with_delta grid_mode b ge :
  exists rows w',
    deltas with_delta grid_mode 0%nat ge (mkWorld {[ 0%nat := b ]} [])
      = Some (rows, w')
    /\ heap w' !! 0%nat = Some b
    /\ length rows
       = if (with_delta || String.eqb grid_mode "delta")%bool
         then length (filter (fun sq => counterfactual_square b sq = true)
                             Chess.SQUARES)
         else 0%nat.
Proof.
  assert (Hr : heap (mkWorld {[ 0%nat := b ]} []) !! 0%nat = Some b)
    by apply lookup_singleton_eq.
  destruct (with_delta || String.eqb grid_mode "delta")%bool eqn:Hreq.
  - destruct (deltas_requested Features board_to_features model with_delta
                grid_mode 0%nat b ge _ Hreq Hr) as (w' & refs & Hrun & Hsub & _).
    eexists _, w'. split; [exact Hrun|].
    split; [by apply (lookup_weaken _ _ _ _ Hr Hsub)|].
    rewrite sort_desc_length.
    by rewrite <- (expected_rows_squares Features board_to_features model b ge),
               length_map.
  - rewrite deltas_not_requested by done. by eexists _, _.
Qed.

(** X7: A run of [main] either stops in the parse of the override string,
    before anything is printed (also when neither the normalize nor the
    scale-piece flag is set, so that the table is never used), or
    prints the whole report and raises nothing: the five entries up to
    the plain grid, the two ranked lists with their headings, then the
    delta heading and one line per delta row when the with-delta flag is
    set, then the 26 entries of the fancy grid when the fancy flag is
    set. *)
Theorem main_report_or_nothing (args : Args.t) (b : Chess.Board) :
  (forall e, parse_nominals (Args.piece_nominals args) = Raise e ->
             main args b = ([], Raise e))
  /\ (forall tbl, parse_nominals (Args.piece_nominals args) = Ok tbl ->
      exists lines,
        main args b = (lines, Ok tt)
        /\ length lines
           = (7
              + 2 * Nat.min 5 (length (filter (fun sq => is_Some (Chess.piece_at b sq))
                                              Chess.SQUARES))
              + (if Args.with_delta args
                 then S (length (filter (fun sq => counterfactual_square b sq = true)
                                        Chess.SQUARES))
                 else 0)
              + (if Args.fancy args then 26 else 0))%nat).
Proof.
  split.
  - intros e He. unfold main. by rewrite He.
  - intros tbl Htbl.
    destruct (contrib_list_rows Features board_to_features planes model b tbl
                (Args.normalize args) (Args.scale_piece args)) as (cl & Hcl & Hall).
    assert (Hlen : length cl = 64%nat) by by rewrite <- (Forall2_length _ _ _ Hall).
    destruct (scored_total b cl Hlen) as (sc & Hsc & Hn).
    destruct (deltas_of_main (Args.with_delta args) (Args.grid_mode args) b
                (global_eval Features board_to_features model b))
      as (rows & w' & Hrun & Hb & Hrows).
    eexists. split.
    + unfold main. cbv zeta.
      eapply prints_bind_lift; [exact Htbl|].
      eapply prints_bind_lift; [exact Hcl|].
      do 4 eapply prints_bind_print.
      eapply prints_bind_lift; [by apply format_matrix_grid|].
      eapply prints_bind_print.
      eapply prints_bind_lift; [exact Hsc|].
      eapply prints_bind_print.
      eapply prints_bind; [apply pfor_print_lines|].
      eapply prints_bind_print.
      eapply prints_bind; [apply pfor_print_lines|].
      rewrite Hrun.
      eapply prints_bind; [apply pfor_print|].
      instantiate (1 := if Args.fancy args then _ else []).
      destruct (Args.fancy args); [|done].
      rewrite Hb. apply fancy_grid_lines. right. by rewrite Hlen.
    + cbn [length]. rewrite !length_app, !length_map. cbn [length].
      rewrite ?length_app, ?length_map, first5_length, last5_length, Hn.
      unfold print_deltas.
      destruct (Args.with_delta args) eqn:Hwd.
      * rewrite orb_true_l in Hrows. cbn [length]. rewrite length_map, Hrows.
        destruct (Args.fancy args); unfold ranks_down; cbn [length concat map app]; lia.
      * destruct (Args.fancy args); unfold ranks_down; cbn [length concat map app]; lia.
Qed.
End MainFacts.

Lemma main_report_or_nothing_witness :
  let b := Chess.from_placement "4k3/8/8/8/8/8/P7/R3K3" in
  let args := Args.mk "4k3/8/8/8/8/8/P7/R3K3 w - - 0 1" true false false "P:2" true
                "delta" in
  let bad := Args.mk "4k3/8/8/8/8/8/P7/R3K3 w - - 0 1" false false false "P:x" false
               "contrib" in
  main Stub.Features Stub.board_to_features Stub.planes Stub.model bad b
  = ([], Raise ValueError)
  /\ exists lines,
       main Stub.Features Stub.board_to_features Stub.planes Stub.model args b
       = (lines, Ok tt)
       /\ length lines = 44%nat.
Proof.
  intros b args bad. split.
  - apply (proj1 (main_report_or_nothing Stub.Features Stub.board_to_features
                    Stub.planes Stub.model bad b)).
    vm_compute. reflexivity.
  - assert (Hp : parse_nominals (Args.piece_nominals args)
                  = Ok (<["P" := Some 2]> default_nom)) by (vm_compute; reflexivity).
    destruct (proj2 (main_report_or_nothing Stub.Features Stub.board_to_features
                       Stub.planes Stub.model args b) _ Hp)
      as (lines & Hrun & Hlen).
    exists lines. split; [exact Hrun|]. rewrite Hlen. vm_compute. reflexivity.
Defined.

(** ** Tokens of the override string *)

Lemma split_nonempty (sep : ascii) (s : string) : Py.split sep s <> [].
Proof.
  destruct s as [|c s]; simpl; [done|].
  destruct (Ascii.eqb c sep); [done|]. by destruct (Py.split sep s).
Qed.

Lemma split_app_sep (sep : ascii) (a b : string) :
  Py.split sep (a +:+ String sep b) = Py.split sep a ++ Py.split sep b.
Proof.
  induction a as [|c a IH]; simpl.
  - by rewrite Ascii.eqb_refl.
  - destruct (Ascii.eqb c sep); [by rewrite IH|].
    rewrite IH. pose proof (split_nonempty sep a) as Hne.
    by destruct (Py.split sep a).
Qed.

Lemma split_no_sep (sep : ascii) (s : string) :
  Py.contains sep s = false -> Py.split sep s = [s].
Proof.
  induction s as [|c s IH]; simpl; [done|].
  intros [Hc Hs]%orb_false_elim. rewrite Hc, IH by done. done.
Qed.

Lemma contains_app (sep : ascii) (a b : string) :
  Py.contains sep (a +:+ b) = (Py.contains sep a || Py.contains sep b)%bool.
Proof.
  induction a as [|c a IH]; simpl; [done|]. by rewrite IH, orb_assoc.
Qed.

Lemma parse_parts_app tbl parts1 parts2 :
  parse_parts tbl (parts1 ++ parts2)
  = (do tbl' <- parse_parts tbl parts1; parse_parts tbl' parts2).
Proof.
  revert tbl. induction parts1 as [|part parts1 IH]; intros tbl; [done|].
  simpl. destruct (parse_part tbl part); simpl; [apply IH|done..].
Qed.

Lemma token_binding_pair (k v : string) (x : Q) :
  Py.contains ":" k = false -> Py.contains ":" v = false ->
  Py.float v = Ok x ->
  token_binding (k +:+ String ":" v) = Some (Py.upper (Py.strip k), x).
Proof.
  intros Hk Hv Hx. unfold token_binding.
  rewrite contains_app. simpl. rewrite orb_true_r.
  rewrite split_app_sep, !split_no_sep by done. simpl. by rewrite Hx.
Qed.

Lemma parse_nominals_append (s k v : string) (x : Q) :
  Py.contains "," k = false -> Py.contains "," v = false ->
  Py.contains ":" k = false -> Py.contains ":" v = false ->
  Py.float v = Ok x ->
  parse_nominals (s +:+ String "," (k +:+ String ":" v))
  = (do tbl <- parse_nominals s; Ok (<[Py.upper (Py.strip k) := Some x]> tbl)).
Proof.
  intros Hck Hcv Hk Hv Hx.
  unfold parse_nominals. rewrite split_app_sep, parse_parts_app.
  rewrite (split_no_sep "," (k +:+ String ":" v)).
  2:{ rewrite contains_app. simpl. by rewrite Hck, Hcv. }
  destruct (parse_parts default_nom (Py.split "," s)) as [tbl| |]; [|done..].
  simpl. by rewrite (parse_part_binding _ _ _ _ (token_binding_pair k v x Hk Hv Hx)).
Qed.

(** X8: appending a well-formed token [k:v] to an override string: the result
    of parsing is the result for the string itself, with the entry of the
    symbol [k.strip().upper()] set to the value of [v]; so the nominal of
    a piece kind named by the symbol (in any letter case, with any white
    space around it) becomes that value, and the nominals of all other
    kinds stay as they were; a symbol that names no piece kind changes no
    nominal. *)
Theorem appended_token_sets_its_symbol (s k v : string) (x : Q) :
  Py.contains "," k = false -> Py.contains "," v = false ->
  Py.contains ":" k = false -> Py.contains ":" v = false ->
  Py.float v = Ok x ->
  parse_nominals (s +:+ String "," (k +:+ String ":" v))
  = (do tbl <- parse_nominals s; Ok (<[Py.upper (Py.strip k) := Some x]> tbl))
  /\ (forall tbl t,
        nominal_map (<[Py.upper (Py.strip k) := Some x]> tbl) t
        = if String.eqb (type_key t) (Py.upper (Py.strip k)) then Some x
          else nominal_map tbl t).
Proof.
  intros Hck Hcv Hk Hv Hx. split.
  - by apply parse_nominals_append.
  - intros tbl t. unfold nominal_map, dict_get.
    destruct (String.eqb_spec (type_key t) (Py.upper (Py.strip k))) as [->|Hne].
    + by rewrite lookup_insert_eq.
    + by rewrite lookup_insert_ne.
Qed.

Lemma appended_token_sets_its_symbol_witness :
  Py.contains "," " q " = false /\ Py.contains "," "9" = false
  /\ Py.contains ":" " q " = false /\ Py.contains ":" "9" = false
  /\ Py.float "9" = Ok 9
  /\ parse_nominals "P:2, q :9"
     = (do tbl <- parse_nominals "P:2"; Ok (<[Py.upper (Py.strip " q ") := Some 9]> tbl)).
Proof.
  assert (H1 : Py.contains "," " q " = false) by reflexivity.
  assert (H2 : Py.contains "," "9" = false) by reflexivity.
  assert (H3 : Py.contains ":" " q " = false) by reflexivity.
  assert (H4 : Py.contains ":" "9" = false) by reflexivity.
  assert (H5 : Py.float "9" = Ok 9) by reflexivity.
  repeat (split; [assumption|]).
  exact (proj1 (appended_token_sets_its_symbol "P:2" " q " "9" 9 H1 H2 H3 H4 H5)).
Defined.

(** ** Tokens of different symbols commute *)

Lemma last_binding_list_to_map (key : string) (parts : list string) :
  NoDup (map fst (omap token_binding parts)) ->
  last_binding key parts
  = (list_to_map (omap token_binding parts) : gmap string Q) !! key.
Proof.
  induction parts as [|part parts IH]; intros Hnd; [done|].
  rewrite last_binding_cons. rewrite omap_cons_match in Hnd |- *.
  unfold binding_step.
  destruct (token_binding part) as [[k x]|] eqn:Hb.
  2:{ rewrite IH by done.
      by destruct (list_to_map (omap token_binding parts) !! key). }
  simpl in Hnd. apply NoDup_cons in Hnd as [Hnot Hnd].
  rewrite IH by done. simpl.
  destruct (String.eqb_spec k key) as [->|Hne].
  - rewrite lookup_insert_eq.
    rewrite (not_elem_of_list_to_map_1 _ key) by done. done.
  - rewrite lookup_insert_ne by done.
    by destruct (list_to_map (omap token_binding parts) !! key).
Qed.

(** X9: the order of the tokens does not matter when no symbol is named
    twice: two override strings whose tokens are the same up to order,
    all of them well formed and no two with the same normalised symbol,
    give the same table. *)
Theorem token_order_irrelevant (s1 s2 : string) :
  Permutation (Py.split "," s1) (Py.split "," s2) ->
  tokens_well_formed s1 = true ->
  NoDup (map fst (omap token_binding (Py.split "," s1))) ->
  exists tbl, parse_nominals s1 = Ok tbl /\ parse_nominals s2 = Ok tbl.
Proof.
  intros Hperm Hwf Hnd. unfold parse_nominals.
  pose proof (tokens_well_formed_spec s1 Hwf) as Hwf1.
  assert (Hwf2 : forall part, part ∈ Py.split "," s2 ->
                   Py.contains ":" part = true -> is_Some (token_binding part)).
  { intros part Hin. apply Hwf1. by rewrite Hperm. }
  assert (Hnd2 : NoDup (map fst (omap token_binding (Py.split "," s2)))).
  { by rewrite <- Hperm. }
  destruct (parse_parts_lookup default_nom _ Hwf1) as (t1 & Ht1 & Hl1).
  destruct (parse_parts_lookup default_nom _ Hwf2) as (t2 & Ht2 & Hl2).
  exists t1. split; [done|]. rewrite Ht2. f_equal. apply map_eq. intros key.
  rewrite Hl1, Hl2, !last_binding_list_to_map by done.
  assert (Heq : (list_to_map (omap token_binding (Py.split "," s1)) : gmap string Q)
                = list_to_map (omap token_binding (Py.split "," s2))).
  { apply list_to_map_proper; [done|]. by rewrite Hperm. }
  by rewrite Heq.
Qed.

Lemma token_order_irrelevant_witness :
  Permutation (Py.split "," "P:2,N:5,x") (Py.split "," "x,N:5,P:2")
  /\ tokens_well_formed "P:2,N:5,x" = true
  /\ NoDup (map fst (omap token_binding (Py.split "," "P:2,N:5,x")))
  /\ exists tbl, parse_nominals "P:2,N:5,x" = Ok tbl
                 /\ parse_nominals "x,N:5,P:2" = Ok tbl.
Proof.
  assert (H1 : Permutation (Py.split "," "P:2,N:5,x") (Py.split "," "x,N:5,P:2")).
  { vm_compute. apply (Permutation_rev ["P:2"; "N:5"; "x"]). }
  assert (H2 : tokens_well_formed "P:2,N:5,x" = true) by reflexivity.
  assert (H3 : NoDup (map fst (omap token_binding (Py.split "," "P:2,N:5,x")))).
  { vm_compute. apply (bool_decide_unpack (NoDup ["P"; "N"])). reflexivity. }
  split; [exact H1|]. split; [exact H2|]. split; [exact H3|].
  exact (token_order_irrelevant "P:2,N:5,x" "x,N:5,P:2" H1 H2 H3).
Defined.

Lemma equal_deltas_in_square_order_witness :
  let b := Chess.starting_board in
  let w := mkWorld {[ 0%nat := b ]} [] in
  (true || String.eqb "contrib" "delta")%bool = true
  /\ heap w !! 0%nat = Some b
  /\ exists rows w',
       deltas Stub.Features Stub.board_to_features Stub.model true "contrib" 0 32 w
       = Some (rows, w')
       /\ StronglySorted lt
            (map row_sq (filter (fun row => Qeq_bool (delta row) 1 = true) rows)).
Proof.
  intros b w.
  assert (H1 : (true || String.eqb "contrib" "delta")%bool = true) by reflexivity.
  assert (H2 : heap w !! 0%nat = Some b) by (vm_compute; reflexivity).
  split; [exact H1|]. split; [exact H2|].
  exact (equal_deltas_in_square_order Stub.Features Stub.board_to_features
           Stub.model true "contrib" 0%nat b 32 w 1 H1 H2).
Defined.

Lemma fancy_grid_layout_witness :
  let b := Chess.from_placement "4k3/8/8/8/8/8/P7/R3K3" in
  String.eqb "delta" "delta" = true
  /\ exists lines, fancy_grid b [] [] "delta" = (lines, Ok tt)
                   /\ length lines = 26%nat
                   /\ lines !! 2%nat
                      = Some "|           |           |           |           |     k     |           |           |           |".
Proof.
  intros b. split; [reflexivity|]. eexists. split.
  - apply (fancy_grid_layout b [] [] "delta"). left. reflexivity.
  - split; [reflexivity|]. vm_compute. reflexivity.
Defined.

(** ** What the two flags do to a piece with a nominal *)

Section FlagFacts.
Variable Features : Type.
Variable board_to_features : Chess.Board -> Features.
Variable planes : Features -> nat -> nat -> Q.
Variable model : Features -> Q * (nat -> nat -> Q).

Local Abbreviation contrib := (contrib Features board_to_features planes model).
Local Abbreviation square_value :=
  (square_value Features board_to_features planes model).
Local Abbreviation contrib_list :=
  (contrib_list Features board_to_features planes model).
Local Abbreviation main := (main Features board_to_features planes model).

Lemma adjust_nonzero normalize scale_piece x val :
  ~ x == 0 ->
  adjust normalize scale_piece (Some x) val
  = Ok (let val1 := if normalize then val / x else val in
        if scale_piece then val1 * x else val1).
Proof.
  intros Hx. unfold adjust, nominal_truthy, Py.float_truthy, Py.truediv.
  destruct (Qeq_bool x 0) eqn:E; [by apply Qeq_bool_iff in E|].
  by destruct normalize, scale_piece.
Qed.

(** X10: for a square whose piece has a nonzero nominal [x], the reported
    value is the raw attribution, divided by [x] when the normalize flag
    is set, and then multiplied by [x] when the scale-piece flag is set;
    with neither flag it is the raw attribution, whatever the table. *)
Theorem flags_select_the_adjustment board tbl sq p x normalize scale_piece :
  (sq < 64)%nat ->
  Chess.piece_at board sq = Some p ->
  nominal_map tbl (Chess.piece_type p) = Some x ->
  ~ x == 0 ->
  exists l,
    contrib_list board tbl normalize scale_piece = Ok l
    /\ l !! sq
       = Some (let val1 := if normalize then contrib board sq / x
                           else contrib board sq in
               if scale_piece then val1 * x else val1)
    /\ (forall tbl' l', contrib_list board tbl' false false = Ok l' ->
                        l' !! sq = Some (contrib board sq)).
Proof.
  intros Hsq Hp Hx Hnz.
  destruct (contrib_list_rows Features board_to_features planes model
              board tbl normalize scale_piece) as (l & Hl & _).
  destruct (contrib_list_lookup _ _ _ _ _ _ _ _ _ _ Hl Hsq) as (v & Hv & Hsv).
  exists l. split; [done|]. split.
  - unfold square_value in Hsv. rewrite Hp, Hx, adjust_nonzero in Hsv by done.
    congruence.
  - intros tbl' l' Hl'.
    destruct (contrib_list_lookup _ _ _ _ _ _ _ _ _ _ Hl' Hsq) as (v' & Hv' & Hsv').
    unfold square_value in Hsv'. rewrite Hp in Hsv'.
    assert (Hraw : adjust false false (nominal_map tbl' (Chess.piece_type p))
                     (contrib board sq) = Ok (contrib board sq)).
    { unfold adjust. by destruct (nominal_map tbl' (Chess.piece_type p)). }
    congruence.
Qed.

(** ** Symbols that name no piece kind *)

Lemma unknown_key_nominal (tbl : gmap string (option Q)) key v t :
  (forall t', type_key t' <> key) ->
  nominal_map (<[key := v]> tbl) t = nominal_map tbl t.
Proof.
  intros Hkey. unfold nominal_map, dict_get. by rewrite lookup_insert_ne.
Qed.

Lemma unknown_key_contrib_list board tbl key v normalize scale_piece :
  (forall t, type_key t <> key) ->
  contrib_list board (<[key := v]> tbl) normalize scale_piece
  = contrib_list board tbl normalize scale_piece.
Proof.
  intros Hkey. unfold contrib_list. apply ofold_ext. intros acc sq _.
  unfold square_value. destruct (Chess.piece_at board sq) as [p|]; [|done].
  by rewrite unknown_key_nominal.
Qed.

(** X11: A well-formed token whose symbol names none of the six piece kinds
    is stored and never read: appending it to the override string
    leaves the whole run of [main] as it is, printed entries and outcome. *)
Theorem unknown_symbol_changes_nothing (args : Args.t) (b : Chess.Board)
    (k v : string) (x : Q) :
  Py.contains "," k = false -> Py.contains "," v = false ->
  Py.contains ":" k = false -> Py.contains ":" v = false ->
  Py.float v = Ok x ->
  (forall t, type_key t <> Py.upper (Py.strip k)) ->
  main (Args.mk (Args.fen args) (Args.with_delta args) (Args.normalize args)
          (Args.scale_piece args)
          (Args.piece_nominals args +:+ String "," (k +:+ String ":" v))
          (Args.fancy args) (Args.grid_mode args)) b
  = main args b.
Proof.
  intros Hck Hcv Hk Hv Hx Hkey. unfold main.
  cbn [Args.fen Args.with_delta Args.normalize Args.scale_piece
       Args.piece_nominals Args.fancy Args.grid_mode].
  pose proof (parse_nominals_append (Args.piece_nominals args) k v x
                Hck Hcv Hk Hv Hx) as Hparse.
  rewrite Hparse.
  destruct (parse_nominals (Args.piece_nominals args)) as [tbl| |]; [|done..].
  cbn [obind]. rewrite !pbind_lift_ok.
  by rewrite unknown_key_contrib_list.
Qed.
End FlagFacts.

Lemma flags_select_the_adjustment_witness :
  let board := Chess.from_placement "4k3/8/8/8/8/8/8/R3K3" in
  (0 < 64)%nat
  /\ Chess.piece_at board 0 = Some (Chess.mkPiece Chess.ROOK true)
  /\ nominal_map default_nom Chess.ROOK = Some 5
  /\ ~ 5 == 0
  /\ exists l,
       contrib_list Stub.Features Stub.board_to_features Stub.planes Stub.model
         board default_nom true false = Ok l
       /\ l !! 0%nat
          = Some (contrib Stub.Features Stub.board_to_features Stub.planes Stub.model
                    board 0 / 5).
Proof.
  intros board.
  assert (H1 : (0 < 64)%nat) by lia.
  assert (H2 : Chess.piece_at board 0 = Some (Chess.mkPiece Chess.ROOK true))
    by (vm_compute; reflexivity).
  assert (H3 : nominal_map default_nom (Chess.piece_type (Chess.mkPiece Chess.ROOK true))
               = Some 5) by (vm_compute; reflexivity).
  assert (H4 : ~ 5 == 0) by (intros H; discriminate H).
  split; [exact H1|]. split; [exact H2|]. split; [exact H3|]. split; [exact H4|].
  destruct (flags_select_the_adjustment Stub.Features Stub.board_to_features
              Stub.planes Stub.model board default_nom 0
              (Chess.mkPiece Chess.ROOK true) 5 true false H1 H2 H3 H4)
    as (l & Hl & Hv & _).
  exists l. split; [exact Hl|exact Hv].
Defined.

Lemma unknown_symbol_changes_nothing_witness :
  let b := Chess.from_placement "4k3/8/8/8/8/8/P7/R3K3" in
  let args := Args.mk "4k3/8/8/8/8/8/P7/R3K3 w - - 0 1" false true true "P:2" false
                "contrib" in
  Py.contains "," "x" = false /\ Py.contains "," "9" = false
  /\ Py.contains ":" "x" = false /\ Py.contains ":" "9" = false
  /\ Py.float "9" = Ok 9
  /\ (forall t, type_key t <> Py.upper (Py.strip "x"))
  /\ main Stub.Features Stub.board_to_features Stub.planes Stub.model
       (Args.mk "4k3/8/8/8/8/8/P7/R3K3 w - - 0 1" false true true "P:2,x:9" false
          "contrib") b
     = main Stub.Features Stub.board_to_features Stub.planes Stub.model args b.
Proof.
  intros b args.
  assert (H1 : Py.contains "," "x" = false) by reflexivity.
  assert (H2 : Py.contains "," "9" = false) by reflexivity.
  assert (H3 : Py.contains ":" "x" = false) by reflexivity.
  assert (H4 : Py.contains ":" "9" = false) by reflexivity.
  assert (H5 : Py.float "9" = Ok 9) by reflexivity.
  assert (H6 : forall t, type_key t <> Py.upper (Py.strip "x"))
    by (intros t; destruct t; discriminate).
  repeat (split; [assumption|]).
  exact (unknown_symbol_changes_nothing Stub.Features Stub.board_to_features
           Stub.planes Stub.model args b "x" "9" 9 H1 H2 H3 H4 H5 H6).
Defined.

(** ** The sum of the contributions *)

Lemma fold_left_Qplus (l : list Q) (a : Q) :
  fold_left Qplus l a == a + fold_left Qplus l 0.
Proof.
  revert a. induction l as [|x l IH]; intros a; simpl.
  - by rewrite Qplus_0_r.
  - rewrite IH, (IH (0 + x)). rewrite Qplus_0_l. by rewrite Qplus_assoc.
Qed.

Lemma py_sum_cons (x : Q) (l : list Q) : py_sum (x :: l) == x + py_sum l.
Proof. unfold py_sum. simpl. rewrite fold_left_Qplus. by rewrite Qplus_0_l. Qed.

Lemma py_sum_app (l1 l2 : list Q) : py_sum (l1 ++ l2) == py_sum l1 + py_sum l2.
Proof.
  induction l1 as [|x l1 IH]; simpl.
  - unfold py_sum at 2. simpl. by rewrite Qplus_0_l.
  - rewrite !py_sum_cons, IH. by rewrite Qplus_assoc.
Qed.

Lemma py_sum_perm (l1 l2 : list Q) : Permutation l1 l2 -> py_sum l1 == py_sum l2.
Proof.
  induction 1 as [|x l1 l2 _ IH|x y l|l1 l2 l3 _ IH1 _ IH2].
  - reflexivity.
  - by rewrite !py_sum_cons, IH.
  - rewrite !py_sum_cons, !Qplus_assoc. by rewrite (Qplus_comm y x).
  - by rewrite IH1.
Qed.

Lemma sum_of_occupied (b : Chess.Board) (l : list Q) :
  (forall i, (i < length l)%nat -> Chess.piece_at b i = None -> nth i l 0 == 0) ->
  py_sum l
  == py_sum (map scored_val (omap (scored_entry b l) (seq 0 (length l)))).
Proof.
  induction l as [|x l IH] using rev_ind; intros Hzero; [reflexivity|].
  rewrite length_app. simpl. rewrite Nat.add_1_r, seq_S, omap_app, map_app. simpl.
  rewrite !py_sum_app.
  assert (Hext : omap (scored_entry b (l ++ [x])) (seq 0 (length l))
                 = omap (scored_entry b l) (seq 0 (length l))).
  { apply list_omap_ext. apply Forall2_same_length_lookup_2; [done|].
    intros i sq sq' Hi Hi'. assert (sq' = sq) as -> by congruence.
    apply lookup_seq in Hi as [-> Hlt]. unfold scored_entry. simpl.
    destruct (Chess.piece_at b i); [|done].
    by rewrite app_nth1. }
  rewrite Hext, <- IH.
  2:{ intros i Hi Hnone. specialize (Hzero i). rewrite length_app in Hzero.
      simpl in Hzero. rewrite app_nth1 in Hzero by done. apply Hzero; [lia|done]. }
  apply Qplus_inj_l.
  specialize (Hzero (length l)). rewrite length_app in Hzero. simpl in Hzero.
  rewrite nth_middle in Hzero. unfold scored_entry.
  rewrite nth_middle.
  destruct (Chess.piece_at b (length l)) as [p|].
  - simpl. reflexivity.
  - simpl. unfold py_sum. simpl. rewrite Qplus_0_l.
    apply Hzero; [lia|done].
Qed.

Section SumFacts.
Variable Features : Type.
Variable board_to_features : Chess.Board -> Features.
Variable planes : Features -> nat -> nat -> Q.
Variable model : Features -> Q * (nat -> nat -> Q).

(** X12: the sum printed at line 94 counts pieces only: for every position,
    table and flag setting, the sum of all 64 entries of the attribution
    list equals (as a rational) the sum of the values of the ranked
    list of occupied squares, the empty squares adding nothing. *)
Theorem sum_is_the_sum_over_pieces board tbl normalize scale_piece :
  exists cl sc,
    contrib_list Features board_to_features planes model board tbl
      normalize scale_piece = Ok cl
    /\ scored board cl = Ok sc
    /\ py_sum cl == py_sum (map scored_val sc).
Proof.
  destruct (contrib_list_rows Features board_to_features planes model
              board tbl normalize scale_piece) as (cl & Hcl & Hall).
  assert (Hlen : length cl = 64%nat) by by rewrite <- (Forall2_length _ _ _ Hall).
  exists cl. eexists. split; [done|]. split; [by apply scored_ok|].
  rewrite <- (py_sum_perm _ _ (Permutation_map scored_val
                                 (sort_desc_perm (fun x => fst (fst x)) _))).
  unfold Chess.SQUARES. rewrite <- Hlen. apply sum_of_occupied.
  intros i Hi Hnone. rewrite Hlen in Hi.
  destruct (contrib_list_lookup _ _ _ _ _ _ _ _ _ _ Hcl Hi) as (v & Hv & Hsv).
  unfold square_value in Hsv. rewrite Hnone in Hsv.
  rewrite nth_lookup, Hv. simpl. by injection Hsv as <-.
Qed.
End SumFacts.
